(** * ScholarScope-MCP: the resilient request client and its callers

    A shallow embedding of [src/api_requests.py] (class [RequestAPI] and
    [validate_url_with_ssrf_guard]) and of the exception paths of the tool
    handlers of [src/server.py].

    Conventions.
    - Python floats are modelled by [pyfloat]: a rational for every finite
      value (rounding is not modelled) and the three non-finite values that
      [float(str)] can produce.
    - Exceptions are modelled by the error monad [result]; [try/except] is a
      match on the raised [exn].
    - Library code the repository calls is either an oracle in the record
      [Lib] (the builtin [float], [email.utils.parsedate_to_datetime],
      [json.loads] behind [Response.json], [validators.url]) or, for the
      retry engine of tenacity, a definition that follows the library's
      [Retrying.__call__] and [iter].
    - The outside world (the HTTP transport, the clock, the random source) is
      the record [World], indexed by the number of the attempt.
    - The sleep between two attempts is [time.sleep] in the blocking loop,
      which raises ValueError on a negative length, and [asyncio.sleep] in
      the awaited one, which returns for every length.
    - The connection handles ([_ensure_client], [close] and the context
      managers) are modelled apart, by the record [Handles]: the requests
      do not depend on them. *)

From Stdlib Require Import ZArith QArith Qminmax String Ascii Lqa DecimalString.
From stdpp Require Import gmap strings list fin_maps.

Open Scope string_scope.

(** ** Python values *)

Inductive pyfloat : Type :=
| Fin (q : Q)
| PosInf
| NegInf
| NaN.

(** [b > a] on floats; every comparison with NaN is false. *)
Definition float_gt (b a : pyfloat) : bool :=
  match b, a with
  | NaN, _ | _, NaN => false
  | PosInf, PosInf => false
  | PosInf, _ => true
  | _, PosInf => false
  | NegInf, _ => false
  | Fin _, NegInf => true
  | Fin x, Fin y => if Qlt_le_dec y x then true else false
  end.

(** The builtin [max(a, b)]: [b] replaces [a] only when [b > a]. *)
Definition py_max (a b : pyfloat) : pyfloat :=
  if float_gt b a then b else a.

Definition zero : pyfloat := Fin 0.

(** [x >= 0.0] as a proposition, for statements. *)
Definition float_nonneg (x : pyfloat) : Prop :=
  match x with
  | Fin q => (0 <= q)%Q
  | PosInf => True
  | NegInf | NaN => False
  end.

#[local] Unset Elimination Schemes.
Inductive pyval : Type :=
| PyNone
| PyBool (b : bool)
| PyInt (z : Z)
| PyFloat (f : pyfloat)
| PyStr (s : string)
| PyList (l : list pyval)
| PyDict (d : list (string * pyval))
| PyValidationError.   (* an instance of validators.ValidationError, as a value *)
#[local] Set Elimination Schemes.

Definition is_None (v : pyval) : bool :=
  match v with PyNone => true | _ => false end.

(** ** Exceptions and the error monad *)

Inductive exn : Type :=
| RetryableStatus (status : Z) (retry_after : option pyfloat)
    (* RequestAPI._RetryableStatus, a direct subclass of Exception *)
| HTTPStatusError (status : Z)          (* httpx.HTTPStatusError *)
| RequestError (description : string)   (* httpx.RequestError and subclasses *)
| ValidationError                       (* validators.ValidationError *)
| ToolError (message : string)          (* fastmcp.exceptions.ToolError *)
| ResourceError (message : string)      (* fastmcp.exceptions.ResourceError *)
| AttributeError (message : string)
| OtherError (name : string)            (* a class not listed here, by name *)
| ValueError (message : string).        (* ValueError and its subclasses *)

Inductive result (A : Type) : Type :=
| Ret (a : A)
| Raise (e : exn).
Arguments Ret {A} a.
Arguments Raise {A} e.

Definition bind {A B} (c : result A) (k : A -> result B) : result B :=
  match c with
  | Ret a => k a
  | Raise e => Raise e
  end.

Notation "'let!' x ':=' c 'in' k" := (bind c (fun x => k))
  (at level 10, x name, c at level 100, k at level 200).
Notation "'do!' c 'in' k" := (bind c (fun _ => k))
  (at level 10, c at level 100, k at level 200).

(** [str(exc)] for the exceptions whose message the code builds or reads. *)
Definition show_Z (z : Z) : string := NilZero.string_of_int (Z.to_int z).

Definition exn_message (e : exn) : string :=
  match e with
  | RetryableStatus status _ => "Retryable HTTP status: " ++ show_Z status
  | HTTPStatusError status => "HTTP status error: " ++ show_Z status
  | RequestError d => d
  | ValidationError => "ValidationError"
  | ToolError m | ResourceError m | AttributeError m => m
  | OtherError n => n
  | ValueError m => m
  end.

(** ** Requests, responses and the client configuration *)

Inductive ParamType : Type :=
| ParamMapping (m : gmap string pyval)          (* a Mapping[str, Any] *)
| ParamSequence (l : list (string * pyval))     (* a Sequence of 2-sequences *)
| ParamOther (v : pyval).                       (* any other shape *)

(** What [_merge_params] hands to httpx: a fresh dict, or the caller's object. *)
Inductive QueryParams : Type :=
| QDict (m : gmap string pyval)
| QRaw (p : ParamType).

Record Request : Type := {
  req_path : string;
  req_headers : gmap string string;
  req_params : QueryParams;
  req_timeout : Q
}.

(** [resp_headers] is keyed the way httpx normalises header names (lower case). *)
Record Response : Type := {
  status_code : Z;
  resp_headers : gmap string string;
  content : string
}.

Record RequestAPI : Type := {
  base_url : string;
  headers : gmap string string;
  default_params : gmap string pyval;
  timeout : Q;
  return_none_on_404 : bool;
  max_retries : Z;
  jitter_max_seconds : Q
}.

(** [RequestAPI(base_url, headers=..., default_params=...)] with the other
    keyword arguments at their defaults. *)
Definition RequestAPI_init (base : string) (hs : gmap string string)
    (dp : gmap string pyval) : RequestAPI :=
  {| base_url := base; headers := hs; default_params := dp;
     timeout := 10; return_none_on_404 := false;
     max_retries := 3; jitter_max_seconds := 1 # 4 |}.

Definition RETRYABLE_STATUSES : gset Z :=
  {[ 408%Z; 425%Z; 429%Z; 500%Z; 502%Z; 503%Z; 504%Z ]}.

(** A [datetime]: the wall-clock reading in microseconds since the epoch and
    the UTC offset of its [tzinfo] in microseconds ([None] for a naive one). *)
Record datetime : Type := {
  wall_us : Z;
  tzinfo : option Z
}.

(** ** Library oracles and the outside world *)

Record Lib : Type := {
  (** [float(s)] on a [str]: the value, or [None] when it raises ValueError. *)
  py_float : string -> option pyfloat;
  (** [email.utils.parsedate_to_datetime(s)]. *)
  parsedate_to_datetime : string -> result (option datetime);
  (** [json.loads] on the body, as [Response.json] calls it: the decoded
      value (JSON null is [PyNone]), or the exception it raises:
      [ValueError] for json.JSONDecodeError and UnicodeDecodeError, which
      are its subclasses, or any other one. *)
  json_loads : string -> result pyval;
  (** [validators.url(url, ..., validate_scheme=f)] with the keyword
      arguments of [validate_url_with_ssrf_guard]. *)
  validators_url : (string -> bool) -> string -> result pyval
}.

Record World : Type := {
  (** The outcome of the [n]-th call of [client.get] (counted from 0). *)
  send : Request -> nat -> result Response;
  (** The [n]-th draw of [random.random()], in [0, 1). *)
  random : nat -> Q;
  (** [datetime.now(timezone.utc)] during the [n]-th attempt, in microseconds. *)
  utcnow : nat -> Z
}.

(** ** RequestAPI helpers *)

Section Client.
Context (lib : Lib) (w : World) (self : RequestAPI).

(** [{k: v for k, v in d.items() if v is not None}] *)
Definition drop_None (d : gmap string pyval) : gmap string pyval :=
  filter (λ kv, is_None kv.2 = false) d.

Definition _merge_params (params : option ParamType) : QueryParams :=
  match params with
  | None => QDict (drop_None (default_params self))
  | Some (ParamMapping m) =>
      (* merged = {**self.default_params, **params} *)
      let merged := m ∪ default_params self in
      QDict (drop_None merged)
  | Some (ParamSequence l) => QRaw (ParamSequence l)
  | Some p => QRaw p
  end.

(** [{**self.headers, **(headers or {})}] *)
Definition merge_headers (hs : option (gmap string string)) : gmap string string :=
  default ∅ hs ∪ headers self.

(** [(dt - now).total_seconds()] for an aware [dt] and a UTC [now]. *)
Definition seconds_until (dt_wall dt_offset now : Z) : Q :=
  (dt_wall - dt_offset - now) # 1000000.

Definition _parse_retry_after (n : nat) (resp : Response) : option pyfloat :=
  match resp_headers resp !! "retry-after" with
  | None => None
  | Some "" => None
  | Some ra =>
      match py_float lib ra with
      | Some v => Some v
      | None =>                             (* except ValueError *)
          match parsedate_to_datetime lib ra with
          | Raise _ => None                 (* except Exception *)
          | Ret None => None
          | Ret (Some dt) =>
              let offset := match tzinfo dt with
                            | None => 0%Z   (* dt.replace(tzinfo=timezone.utc) *)
                            | Some o => o
                            end in
              let now := utcnow w n in
              Some (py_max zero (Fin (seconds_until (wall_us dt) offset now)))
          end
      end
  end.

Definition _maybe_raise_for_retry (n : nat) (resp : Response) : result unit :=
  if bool_decide (status_code resp ∈ RETRYABLE_STATUSES)
  then Raise (RetryableStatus (status_code resp) (_parse_retry_after n resp))
  else Ret tt.

(** [resp.text]: the body decoded leniently; never raises. *)
Definition text (resp : Response) : pyval := PyStr (content resp).

Definition _parse (resp : Response) : result pyval :=
  if (status_code resp =? 204)%Z then Ret PyNone
  else match json_loads lib (content resp) with
       | Ret v => Ret v
       | Raise (ValueError _) => Ret (text resp)     (* except ValueError *)
       | Raise e => Raise e
       end.

(** [httpx.Response.is_success] and [raise_for_status]. *)
Definition is_success (resp : Response) : bool :=
  (200 <=? status_code resp)%Z && (status_code resp <=? 299)%Z.

Definition raise_for_status (resp : Response) : result unit :=
  if is_success resp then Ret tt
  else Raise (HTTPStatusError (status_code resp)).

Definition make_request (path : string) (params : option ParamType)
    (hs : option (gmap string string)) : Request :=
  {| req_path := path;
     req_headers := merge_headers hs;
     req_params := _merge_params params;
     req_timeout := timeout self |}.

(** One attempt; [n] counts the attempts already made. [_aget_once] has
    the same body with the call of the transport awaited. *)
Definition _get_once (path : string) (params : option ParamType)
    (hs : option (gmap string string)) (n : nat) : result pyval :=
  let! resp := send w (make_request path params hs) n in
  do! _maybe_raise_for_retry n resp in
  if (status_code resp =? 404)%Z && return_none_on_404 self then Ret PyNone
  else
    do! raise_for_status resp in
    _parse resp.

Definition _aget_once := _get_once.

End Client.

(** ** The retry engine

    [Retrying] is what [tenacity.Retrying(...)] is configured with;
    [RetryCallState] is the per-call state tenacity threads through its hooks.
    [iter] and [Retrying_call] follow [BaseRetrying.iter] and
    [Retrying.__call__] of tenacity ([AsyncRetrying.__call__] runs the same
    [iter] and awaits the attempt and the sleep). *)

Record RetryCallState : Type := {
  attempt_number : nat;                    (* starts at 1 *)
  outcome : option (result pyval);         (* None until the attempt has run *)
  next_action_sleep : option pyfloat;      (* retry_state.next_action.sleep *)
  idle_for : Q
}.

Definition initial_state : RetryCallState :=
  {| attempt_number := 1; outcome := None;
     next_action_sleep := None; idle_for := 0 |}.

Definition set_outcome (rs : RetryCallState) (o : result pyval) : RetryCallState :=
  {| attempt_number := attempt_number rs; outcome := Some o;
     next_action_sleep := next_action_sleep rs; idle_for := idle_for rs |}.

(** [retry_state.next_action = RetryAction(sleep); retry_state.idle_for += sleep] *)
Definition set_next_action (rs : RetryCallState) (sleep : Q) : RetryCallState :=
  {| attempt_number := attempt_number rs; outcome := outcome rs;
     next_action_sleep := Some (Fin sleep); idle_for := (idle_for rs + sleep)%Q |}.

(** [retry_state.next_action.sleep = v] *)
Definition set_next_action_sleep (rs : RetryCallState) (v : pyfloat) : RetryCallState :=
  {| attempt_number := attempt_number rs; outcome := outcome rs;
     next_action_sleep := Some v; idle_for := idle_for rs |}.

Definition prepare_for_next_attempt (rs : RetryCallState) : RetryCallState :=
  {| attempt_number := S (attempt_number rs); outcome := None;
     next_action_sleep := None; idle_for := idle_for rs |}.

Record Retrying : Type := {
  sleep : Q -> result unit;
  stop : RetryCallState -> bool;
  wait : RetryCallState -> Q;
  reraise : bool;
  retry : RetryCallState -> bool;
  before_sleep : RetryCallState -> RetryCallState
}.

(** [time.sleep], the [sleep] of [Retrying]: a negative length raises
    ValueError. *)
Definition time_sleep (seconds : Q) : result unit :=
  if Qlt_le_dec seconds 0
  then Raise (ValueError "sleep length must be non-negative")
  else Ret tt.

(** [asyncio.sleep], the [sleep] of [AsyncRetrying]: a delay that is not
    positive returns at once. *)
Definition asyncio_sleep (delay : Q) : result unit := Ret tt.

Inductive action : Type :=
| DoAttempt
| DoSleep (seconds : Q)
| DoReturn (v : pyval)
| DoRaise (e : exn).

(** [stop_after_attempt(max_attempt_number)] *)
Definition stop_after_attempt (max_attempt_number : Z) (rs : RetryCallState) : bool :=
  (max_attempt_number <=? Z.of_nat (attempt_number rs))%Z.

(** [wait_exponential(multiplier, max)] with [min=0] and [exp_base=2]:
    [max(max(0, min), min(multiplier * exp_base ** (attempt_number - 1), max))]. *)
Definition wait_exponential (multiplier max_ : Q) (rs : RetryCallState) : Q :=
  let exp := (2 ^ (Z.of_nat (attempt_number rs) - 1))%Z in
  let result := (multiplier * inject_Z exp)%Q in
  Qmax (Qmax 0 0) (Qmin result max_).

(** [wait_random(min, max)]: [min + random.random() * (max - min)]; the draw
    used before the retry that follows attempt [k] is draw [k - 1]. *)
Definition wait_random (w : World) (min_ max_ : Q) (rs : RetryCallState) : Q :=
  (min_ + random w (attempt_number rs - 1)%nat * (max_ - min_))%Q.

(** [w1 + w2] on wait strategies ([wait_combine]): the sum of the two waits. *)
Definition wait_combine (w1 w2 : RetryCallState -> Q) (rs : RetryCallState) : Q :=
  (0 + w1 rs + w2 rs)%Q.

(** [retry_if_exception_type((_RetryableStatus, httpx.RequestError))] *)
Definition is_retryable_exception (e : exn) : bool :=
  match e with
  | RetryableStatus _ _ | RequestError _ => true
  | _ => false
  end.

Definition retry_if_exception_type (p : exn -> bool) (rs : RetryCallState) : bool :=
  match outcome rs with
  | Some (Raise e) => p e
  | _ => false
  end.

(** The tenacity hook of the client. *)
Definition _maybe_sleep_until_retry_after (rs : RetryCallState) : RetryCallState :=
  match outcome rs with
  | Some (Raise (RetryableStatus _ (Some retry_after))) =>
      set_next_action_sleep rs (py_max zero retry_after)
  | _ => rs
  end.

Definition _retrying (w : World) (self : RequestAPI) : Retrying :=
  {| sleep := time_sleep;
     stop := stop_after_attempt (max_retries self);
     wait := wait_combine (wait_exponential (1 # 2) 8)
                          (wait_random w 0 (jitter_max_seconds self));
     reraise := true;
     retry := retry_if_exception_type is_retryable_exception;
     before_sleep := _maybe_sleep_until_retry_after |}.

Definition _aretrying (w : World) (self : RequestAPI) : Retrying :=
  {| sleep := asyncio_sleep;
     stop := stop_after_attempt (max_retries self);
     wait := wait_combine (wait_exponential (1 # 2) 8)
                          (wait_random w 0 (jitter_max_seconds self));
     reraise := true;
     retry := retry_if_exception_type is_retryable_exception;
     before_sleep := _maybe_sleep_until_retry_after |}.

(** [BaseRetrying.iter]: decide what to do next.  The duration handed to
    [DoSleep] is the value [wait] returned; [before_sleep] runs after
    [next_action] has been filled in and before [DoSleep] is returned. *)
Definition iter (r : Retrying) (rs : RetryCallState) : action * RetryCallState :=
  match outcome rs with
  | None => (DoAttempt, rs)
  | Some fut =>
      if negb (retry r rs) then
        (match fut with Ret v => DoReturn v | Raise e => DoRaise e end, rs)
      else if stop r rs then
        (match fut with
         | Raise e => if reraise r then DoRaise e else DoRaise (OtherError "RetryError")
         | Ret _ => DoRaise (OtherError "RetryError")
         end, rs)
      else
        let sleep := wait r rs in
        let rs := set_next_action rs sleep in
        let rs := before_sleep r rs in
        (DoSleep sleep, rs)
  end.

(** What one logical call did: how many attempts ran and, in order, the
    durations of the sleeps that were slept. *)
Record Trace : Type := {
  attempts : nat;
  sleeps : list Q
}.

Definition empty_trace : Trace := {| attempts := 0; sleeps := [] |}.
Definition log_attempt (t : Trace) : Trace :=
  {| attempts := S (attempts t); sleeps := sleeps t |}.
Definition log_sleep (t : Trace) (d : Q) : Trace :=
  {| attempts := attempts t; sleeps := sleeps t ++ [d] |}.

(** [Retrying.__call__]: the [while True] loop, one iteration per unit of
    fuel.  An exception of [sleep] is raised outside every [try] and leaves
    the call. *)
Fixpoint Retrying_call (fuel : nat) (r : Retrying) (fn : nat -> result pyval)
    (rs : RetryCallState) (t : Trace) : option (result pyval * Trace) :=
  match fuel with
  | O => None
  | S fuel =>
      match iter r rs with
      | (DoAttempt, rs) =>
          let o := fn (attempts t) in
          Retrying_call fuel r fn (set_outcome rs o) (log_attempt t)
      | (DoSleep d, rs) =>
          match sleep r d with
          | Ret _ =>
              Retrying_call fuel r fn (prepare_for_next_attempt rs) (log_sleep t d)
          | Raise e => Some (Raise e, t)
          end
      | (DoReturn v, _) => Some (Ret v, t)
      | (DoRaise e, _) => Some (Raise e, t)
      end
  end.

(** Two loop iterations per attempt are always enough. *)
Definition enough_fuel (self : RequestAPI) : nat :=
  2 * Z.to_nat (Z.max 1 (max_retries self)).

Section Calls.
Context (lib : Lib) (w : World) (self : RequestAPI).

Definition get (path : string) (params : option ParamType)
    (hs : option (gmap string string)) : option (result pyval * Trace) :=
  Retrying_call (enough_fuel self) (_retrying w self)
    (_get_once lib w self path params hs) initial_state empty_trace.

Definition aget (path : string) (params : option ParamType)
    (hs : option (gmap string string)) : option (result pyval * Trace) :=
  Retrying_call (enough_fuel self) (_aretrying w self)
    (_aget_once lib w self path params hs) initial_state empty_trace.

End Calls.

(** ** The URL guard *)

(** [lambda s: s in {"http", "https"}] *)
Definition scheme_allowed (s : string) : bool :=
  bool_decide (s ∈ ({[ "http"; "https" ]} : gset string)).

(** [bool(v)].  [validators.url] answers [True] or a
    [validators.ValidationError] instance, whose [__bool__] is [False]. *)
Definition py_truthy (v : pyval) : bool :=
  match v with
  | PyNone => false
  | PyBool b => b
  | PyInt z => negb (z =? 0)%Z
  | PyFloat (Fin q) => negb (Qeq_bool q 0)
  | PyFloat _ => true
  | PyStr s => negb (String.eqb s "")
  | PyList l => match l with [] => false | _ => true end
  | PyDict d => match d with [] => false | _ => true end
  | PyValidationError => false
  end.

Definition validate_url_with_ssrf_guard (lib : Lib) (url : string) : result pyval :=
  match validators_url lib scheme_allowed url with
  | Raise ValidationError => Ret (PyBool false)   (* except validators.ValidationError *)
  | Raise e => Raise e
  | Ret result => Ret result
  end.

(** ** The tool handlers of server.py

    Modelled from the call of [api.aget] on: the test for an empty result,
    the two [except] clauses, and what leaves the handler.  The shaping of
    the records into [PageResult]/[ListResult] (schemas.py) is not modelled:
    a successful handler answers with the raw records. *)

Inductive handler : Type :=
| search_papers
| search_authors
| search_institutions
| papers_by_author
| referenced_works_in_paper
| related_works_of_paper
| works_citing_paper
| fetch_fulltext.

(** The key whose list the handler reads from the decoded body. *)
Definition results_key (h : handler) : string :=
  match h with
  | referenced_works_in_paper => "referenced_works"
  | related_works_of_paper => "related_works"
  | _ => "results"
  end.

(** The message raised when nothing came back; [subject] is the identifier
    the handler interpolates. *)
Definition empty_message (h : handler) (subject : string) : string :=
  match h with
  | search_papers => "No works found with the query."
  | search_authors => "No authors found with the query."
  | search_institutions => "No institutions found with the query."
  | papers_by_author => "No works found for author_id=" ++ subject ++ "."
  | referenced_works_in_paper => "No referenced works found for paper_id=" ++ subject ++ "."
  | related_works_of_paper => "No related_works works found for paper_id=" ++ subject ++ "."
  | works_citing_paper => "No cites found for paper_id=" ++ subject ++ "."
  | fetch_fulltext => "Response is empty content. Try again later."
  end.

Fixpoint assoc (k : string) (d : list (string * pyval)) : option pyval :=
  match d with
  | [] => None
  | (k', v) :: d => if String.eqb k k' then Some v else assoc k d
  end.

(** [result.get(key, [])]: only a dict has [get]. *)
Definition py_get (v : pyval) (key : string) : result pyval :=
  match v with
  | PyDict d => Ret (default (PyList []) (assoc key d))
  | _ => Raise (AttributeError "object has no attribute 'get'")
  end.

(** [x or []] *)
Definition or_empty_list (x : pyval) : pyval :=
  if py_truthy x then x else PyList [].

(** [len(x)] *)
Definition py_len (x : pyval) : result nat :=
  match x with
  | PyList l => Ret (length l)
  | PyDict d => Ret (length d)
  | PyStr s => Ret (String.length s)
  | _ => Raise (OtherError "TypeError")
  end.

Inductive ToolOutput : Type :=
| Records (data : pyval)      (* the raw records a search or list tool found *)
| FullText (body : pyval).    (* what fetch_fulltext returns *)

Section Tools.
Context (lib : Lib) (w : World).
(** The environment variable OPENALEX_MAILTO. *)
Context (OPENALEX_MAILTO : string).

Definition openalex : RequestAPI :=
  RequestAPI_init "https://api.openalex.org" ∅
    {[ "mailto" := PyStr OPENALEX_MAILTO ]}.

Definition jina_prefix : string := "https://r.jina.ai/".

(** [RequestAPI(jina_prefix[:-1])] *)
Definition jina : RequestAPI :=
  RequestAPI_init "https://r.jina.ai" ∅ ∅.

(** The body of the [try] of the seven OpenAlex tools, from the value
    [api.aget] returned. *)
Definition records_or_error (h : handler) (subject : string) (v : pyval)
    : result ToolOutput :=
  if is_None v then Raise (ToolError (empty_message h subject))
  else
    let! found := py_get v (results_key h) in
    let! n := py_len (or_empty_list found) in
    if (n =? 0)%nat then Raise (ToolError (empty_message h subject))
    else Ret (Records (or_empty_list found)).

(** The two [except] clauses of the OpenAlex tools; every other exception
    leaves the handler as it is. *)
Definition except_httpx (wrap : string -> exn) (r : result ToolOutput)
    : result ToolOutput :=
  match r with
  | Raise (HTTPStatusError status) =>
      Raise (wrap ("Request failed with status: " ++ show_Z status))
  | Raise (RequestError d) =>
      Raise (wrap ("Network error: " ++ d))
  | r => r
  end.

(** One of the seven OpenAlex tools, once [path] and [params] are built. *)
Definition openalex_tool (h : handler) (subject path : string)
    (params : option ParamType) : option (result ToolOutput * Trace) :=
  match aget lib w openalex path params None with
  | None => None
  | Some (r, t) =>
      Some (except_httpx ToolError
              (let! v := r in records_or_error h subject v), t)
  end.

Definition strip_prefix (p s : string) : string :=
  if String.prefix p s
  then String.substring (String.length p) (String.length s - String.length p) s
  else s.

Definition fetch_fulltext_tool (preferred_fulltext_url : string)
    : option (result ToolOutput * Trace) :=
  let url := strip_prefix jina_prefix preferred_fulltext_url in
  match validate_url_with_ssrf_guard lib url with
  | Raise e => Some (Raise e, empty_trace)
  | Ret ok =>
      if negb (py_truthy ok)
      then Some (Raise (ResourceError ("Invalid or Disallowed URL: " ++ url)),
                 empty_trace)
      else
        match aget lib w jina ("/" ++ url) None None with
        | None => None
        | Some (r, t) =>
            Some (except_httpx ResourceError
                    (let! v := r in
                     if is_None v
                     then Raise (ToolError (empty_message fetch_fulltext ""))
                     else Ret (FullText v)), t)
        end
  end.

(** A tool call as the server receives it. *)
Definition call_tool (h : handler) (subject path : string)
    (params : option ParamType) : option (result ToolOutput * Trace) :=
  match h with
  | fetch_fulltext => fetch_fulltext_tool subject
  | _ => openalex_tool h subject path params
  end.

(** The parameters [papers_by_author] and [works_citing_paper] build. *)
Definition listing_params (filter sort_by : string) (page : Z) : ParamType :=
  ParamMapping {[ "filter" := PyStr filter;
                  "sort" := PyStr (sort_by ++ ":desc");
                  "page" := PyInt page;
                  "per_page" := PyInt 10 ]}.

(** [papers_by_author(author_id, sort_by, page)] *)
Definition papers_by_author_tool (author_id sort_by : string) (page : Z)
    : option (result ToolOutput * Trace) :=
  call_tool papers_by_author author_id "/works"
    (Some (listing_params ("authorships.author.id:" ++ author_id) sort_by page)).

(** [works_citing_paper(paper_id, sort_by, page)] *)
Definition works_citing_paper_tool (paper_id sort_by : string) (page : Z)
    : option (result ToolOutput * Trace) :=
  call_tool works_citing_paper paper_id "/works"
    (Some (listing_params ("cites:" ++ paper_id) sort_by page)).

(** [referenced_works_in_paper(paper_id)] *)
Definition referenced_works_in_paper_tool (paper_id : string)
    : option (result ToolOutput * Trace) :=
  call_tool referenced_works_in_paper paper_id ("/works/" ++ paper_id) None.

(** [related_works_of_paper(paper_id)] *)
Definition related_works_of_paper_tool (paper_id : string)
    : option (result ToolOutput * Trace) :=
  call_tool related_works_of_paper paper_id ("/works/" ++ paper_id) None.

End Tools.

(** ** Concrete libraries and worlds, to run the model on

    Stand-ins that agree with the Python functions on the inputs they are
    used at; the theorems below hold for every [Lib] and [World]. *)

Definition digit_of (c : ascii) : option Z :=
  let n := Z.of_nat (nat_of_ascii c) in
  if (48 <=? n)%Z && (n <=? 57)%Z then Some (n - 48)%Z else None.

(** Reads a run of decimal digits: the number read, how many digits, the rest. *)
Fixpoint read_digits (s : string) (acc : Z) (count : nat) : Z * nat * string :=
  match s with
  | String c rest =>
      match digit_of c with
      | Some d => read_digits rest (acc * 10 + d)%Z (S count)
      | None => (acc, count, s)
      end
  | EmptyString => (acc, count, s)
  end.

(** [float] on plain signed decimals such as ["2"], ["-5"] and ["0.25"];
    every other string is answered as if [float] raised ValueError. *)
Definition float_decimal (s : string) : option pyfloat :=
  let '(sign, body) :=
    match s with
    | String "-"%char rest => ((-1)%Z, rest)
    | String "+"%char rest => (1%Z, rest)
    | _ => (1%Z, s)
    end in
  let '(int_part, n_int, rest) := read_digits body 0 0 in
  let '(num, n_frac, rest) :=
    match rest with
    | String "."%char rest' => read_digits rest' int_part 0
    | _ => (int_part, 0%nat, rest)
    end in
  match rest, (n_int + n_frac)%nat with
  | EmptyString, S _ =>
      Some (Fin (Qmake (sign * num) (Z.to_pos (10 ^ Z.of_nat n_frac))))
  | _, _ => None
  end.

(** 2015-10-21 07:28:00 UTC, in microseconds since the epoch. *)
Definition oct_21_2015 : Z := 1445412480000000.

(** [parsedate_to_datetime] on one HTTP-date, with and without a zone. *)
Definition parsedate_fixed (s : string) : result (option datetime) :=
  if String.eqb s "Wed, 21 Oct 2015 07:28:00 GMT"
  then Ret (Some {| wall_us := oct_21_2015; tzinfo := Some 0%Z |})
  else if String.eqb s "Wed, 21 Oct 2015 07:28:00 -0000"
  then Ret (Some {| wall_us := oct_21_2015; tzinfo := None |})
  else Raise (ValueError "Invalid date value or format").

(** A body of [n] opening brackets. *)
Fixpoint brackets (n : nat) : string :=
  match n with
  | O => EmptyString
  | S n => String "["%char (brackets n)
  end.

(** A thousand nested lists that are never closed, on which [json.loads]
    raises RecursionError. *)
Definition deep_body : string := brackets 1000.

(** [json.loads] on four bodies; any other body is answered as if it raised
    json.JSONDecodeError. *)
Definition json_literal (s : string) : result pyval :=
  if String.eqb s "null" then Ret PyNone
  else if String.eqb s "[]" then Ret (PyList [])
  else if String.eqb s "[1]" then Ret (PyList [PyInt 1])
  else if String.eqb s deep_body then Raise (OtherError "RecursionError")
  else Raise (ValueError "Expecting value").

(** [validators.url] on a URL it rejects: the falsy ValidationError object. *)
Definition url_rejecting (_ : string -> bool) (_ : string) : result pyval :=
  Ret PyValidationError.

(** A validator whose internals fail with something else than ValidationError. *)
Definition url_crashing (_ : string -> bool) (_ : string) : result pyval :=
  Raise (OtherError "RecursionError").

(** A validator run with raising enabled (RAISE_VALIDATION_ERROR). *)
Definition url_raising (_ : string -> bool) (_ : string) : result pyval :=
  Raise ValidationError.

(** A validator that looks at the scheme only. *)
Definition url_by_scheme (validate_scheme : string -> bool) (url : string)
    : result pyval :=
  if String.prefix "https://" url && validate_scheme "https"
  then Ret (PyBool true)
  else if String.prefix "http://" url && validate_scheme "http"
  then Ret (PyBool true)
  else Ret PyValidationError.

Definition lib_with (v : (string -> bool) -> string -> result pyval) : Lib :=
  {| py_float := float_decimal;
     parsedate_to_datetime := parsedate_fixed;
     json_loads := json_literal;
     validators_url := v |}.

Definition demo_lib : Lib := lib_with url_by_scheme.

(** A response with the given status, an optional Retry-After header and a body. *)
Definition response (status : Z) (retry_after : option string) (body : string)
    : Response :=
  {| status_code := status;
     resp_headers := match retry_after with
                     | Some v => {[ "retry-after" := v ]}
                     | None => ∅
                     end;
     content := body |}.

(** A world that answers the attempts from a script, then with [last];
    the random source always draws [r]; the clock stands at [now]. *)
Definition scripted (script : list (result Response)) (last : result Response)
    (r : Q) (now : Z) : World :=
  {| send := fun _ n => nth n script last;
     random := fun _ => r;
     utcnow := fun _ => now |}.

(** A server that looks at the query of the request: it answers 200 with
    the body [[1]] when the query is a dict with [page] 2 and [mailto]
    x@y.com, and 400 otherwise. *)
Definition page_two_server : World :=
  {| send := fun request _ =>
       match req_params request with
       | QDict m =>
           match m !! "page", m !! "mailto" with
           | Some (PyInt 2), Some (PyStr "x@y.com") => Ret (response 200 None "[1]")
           | _, _ => Ret (response 400 None "")
           end
       | QRaw _ => Ret (response 400 None "")
       end;
     random := fun _ => 0%Q;
     utcnow := fun _ => 0%Z |}.

Definition client (flag_404 : bool) (retries : Z) (jitter : Q) : RequestAPI :=
  {| base_url := "https://api.openalex.org"; headers := ∅;
     default_params := {[ "mailto" := PyStr "x@y.com" ]};
     timeout := 10; return_none_on_404 := flag_404;
     max_retries := retries; jitter_max_seconds := jitter |}.

(** ** Notions used in the statements *)

(** The attempt ended in an exception the retry predicate retries. *)
Definition retryable_outcome (o : result pyval) : bool :=
  match o with
  | Raise e => is_retryable_exception e
  | Ret _ => false
  end.

Definition state_at (k : nat) : RetryCallState :=
  {| attempt_number := k; outcome := None;
     next_action_sleep := None; idle_for := 0 |}.

Definition state_at_idle (k : nat) (idle : Q) : RetryCallState :=
  {| attempt_number := k; outcome := None;
     next_action_sleep := None; idle_for := idle |}.

(** The wait the configured strategy computes after attempt [k]. *)
Definition computed_wait (w : World) (self : RequestAPI) (k : nat) : Q :=
  wait (_retrying w self) (state_at k).

(** The backoff in the words of the specification: the first retry waits
    0.5, each later one twice the wait before it, never more than 8.
    Retries are counted from 0. *)
Fixpoint backoff_spec (i : nat) : Q :=
  match i with
  | O => 1 # 2
  | S i => Qmin (2 * backoff_spec i) 8
  end.

(** The jitter added before retry [i]. *)
Definition jitter (w : World) (self : RequestAPI) (i : nat) : Q :=
  (random w i * jitter_max_seconds self)%Q.

(** The instant a datetime denotes, in UTC microseconds, a naive one read as UTC. *)
Definition utc_us (dt : datetime) : Z :=
  (wall_us dt - default 0 (tzinfo dt))%Z.

(** A library whose JSON decoder is [decode]; the rest as in [demo_lib]. *)
Definition lib_with_json (decode : string -> result pyval) : Lib :=
  {| py_float := float_decimal;
     parsedate_to_datetime := parsedate_fixed;
     json_loads := decode;
     validators_url := url_by_scheme |}.

(** ** The connection handles of a client

    [httpx.Client(...)] and [httpx.AsyncClient(...)] make a new handle at
    each call; handles are numbered in the order they are made.  A client
    object holds at most one of each kind. *)

Record Handles : Type := {
  _client : option nat;
  _aclient : option nat;
  created : nat;            (* handles made so far, and the next number *)
  released : list nat       (* handles closed, oldest first *)
}.

(** The handles of a client that has just been constructed. *)
Definition no_handles : Handles :=
  {| _client := None; _aclient := None; created := 0; released := [] |}.

Definition _ensure_client (h : Handles) : Handles :=
  match _client h with
  | None => {| _client := Some (created h); _aclient := _aclient h;
               created := S (created h); released := released h |}
  | Some _ => h
  end.

Definition _ensure_aclient (h : Handles) : Handles :=
  match _aclient h with
  | None => {| _client := _client h; _aclient := Some (created h);
               created := S (created h); released := released h |}
  | Some _ => h
  end.

Definition close (h : Handles) : Handles :=
  match _client h with
  | Some c => {| _client := None; _aclient := _aclient h;
                 created := created h; released := released h ++ [c] |}
  | None => h
  end.

Definition aclose (h : Handles) : Handles :=
  match _aclient h with
  | Some c => {| _client := _client h; _aclient := None;
                 created := created h; released := released h ++ [c] |}
  | None => h
  end.

Definition __enter__ : Handles → Handles := _ensure_client.
Definition __exit__ : Handles → Handles := close.
Definition __aenter__ : Handles → Handles := _ensure_aclient.
Definition __aexit__ : Handles → Handles := aclose.

(** What a caller can do with a client, as far as the handles go: [get] and
    [aget] acquire the handle of their kind before the first attempt and
    leave it open, whatever the call ends in. *)
Inductive client_use : Type :=
| use_get | use_aget
| use_close | use_aclose
| use_enter | use_exit
| use_aenter | use_aexit.

Definition use (h : Handles) (u : client_use) : Handles :=
  match u with
  | use_get => _ensure_client h
  | use_aget => _ensure_aclient h
  | use_close => close h
  | use_aclose => aclose h
  | use_enter => __enter__ h
  | use_exit => __exit__ h
  | use_aenter => __aenter__ h
  | use_aexit => __aexit__ h
  end.

Definition use_all (us : list client_use) (h : Handles) : Handles :=
  fold_left use us h.

(** The number of handles a client holds open. *)
Definition live (h : Handles) : nat :=
  match _client h with Some _ => 1 | None => 0 end
  + match _aclient h with Some _ => 1 | None => 0 end.

(** The handles are accounted for: none is released twice, a handle the
    client holds is not a released one, the two kinds never share a handle,
    and every handle made is held or released. *)
Definition handles_ok (h : Handles) : Prop :=
  NoDup (released h)
  ∧ (∀ c, c ∈ released h → (c < created h)%nat)
  ∧ (∀ c, _client h = Some c → (c < created h)%nat ∧ c ∉ released h)
  ∧ (∀ c, _aclient h = Some c → (c < created h)%nat ∧ c ∉ released h)
  ∧ (∀ c c', _client h = Some c → _aclient h = Some c' → c ≠ c')
  ∧ created h = (length (released h) + live h)%nat.

(** ** utils.sanitize_search_text

    A [str] is the list of its code points. *)

(** The code points for which [str.isspace] holds, which are also the ones
    the pattern [\s] matches in a [str]. *)
Definition whitespace_code_points : list N :=
  [9; 10; 11; 12; 13; 28; 29; 30; 31; 32; 133; 160; 5760;
   8192; 8193; 8194; 8195; 8196; 8197; 8198; 8199; 8200; 8201; 8202;
   8232; 8233; 8239; 8287; 12288]%N.

Definition isspace (c : N) : bool := existsb (N.eqb c) whitespace_code_points.

Definition comma : N := 44.
Definition space : N := 32.

(** [s.replace(",", " ")] *)
Definition replace_comma (s : list N) : list N :=
  map (fun c => if N.eqb c comma then space else c) s.

(** [re.sub(r"\s+", " ", s)]: every maximal run of whitespace becomes one
    space; [in_run] tells that the run the scan is in is already replaced. *)
Fixpoint sub_whitespace_runs (in_run : bool) (s : list N) : list N :=
  match s with
  | [] => []
  | c :: s =>
      if isspace c
      then if in_run then sub_whitespace_runs true s
           else space :: sub_whitespace_runs true s
      else c :: sub_whitespace_runs false s
  end.

Fixpoint lstrip (s : list N) : list N :=
  match s with
  | [] => []
  | c :: s' => if isspace c then lstrip s' else s
  end.

Fixpoint rstrip (s : list N) : list N :=
  match s with
  | [] => []
  | c :: s =>
      match rstrip s with
      | [] => if isspace c then [] else [c]
      | kept => c :: kept
      end
  end.

(** [s.strip()] *)
Definition strip (s : list N) : list N := rstrip (lstrip s).

Definition sanitize_search_text (s : option (list N)) : option (list N) :=
  match s with
  | None => None                    (* not None: returned as it is *)
  | Some [] => Some []              (* not "": returned as it is *)
  | Some s => Some (strip (sub_whitespace_runs false (replace_comma s)))
  end.

(** A code point that separates words for the sanitiser. *)
Definition is_separator (c : N) : bool := isspace c || N.eqb c comma.

(** No space follows a space; [after_space] tells that one came just before. *)
Fixpoint single_spaced (after_space : bool) (s : list N) : bool :=
  match s with
  | [] => true
  | c :: s =>
      if N.eqb c space then negb after_space && single_spaced true s
      else single_spaced false s
  end.

(** [s] cut at every code point that [sep] holds for, empty pieces kept. *)
Fixpoint pieces (sep : N → bool) (s : list N) : list (list N) :=
  match s with
  | [] => [[]]
  | c :: s =>
      if sep c then [] :: pieces sep s
      else match pieces sep s with
           | w :: ws => (c :: w) :: ws
           | [] => [[c]]
           end
  end.

Definition nonempty (w : list N) : bool :=
  match w with [] => false | _ => true end.

(** The words of a search text: what lies between commas and whitespace. *)
Definition words (s : list N) : list (list N) :=
  List.filter nonempty (pieces is_separator s).

(** A word of a search text is not empty and holds no separator. *)
Definition word_ok (w : list N) : Prop :=
  w ≠ [] ∧ Forall (λ c, is_separator c = false) w.

(** [" ".join(ws)] *)
Fixpoint join_spaces (ws : list (list N)) : list N :=
  match ws with
  | [] => []
  | w :: ws =>
      match ws with
      | [] => w
      | _ => w ++ space :: join_spaces ws
      end
  end.

(** ** Paging in the search tools *)

(** [d.get(key, default)] *)
Definition py_get_default (v : pyval) (key : string) (dflt : pyval) : result pyval :=
  match v with
  | PyDict d => Ret (default dflt (assoc key d))
  | _ => Raise (AttributeError "object has no attribute 'get'")
  end.

(** [x or {}] *)
Definition or_empty_dict (x : pyval) : pyval :=
  if py_truthy x then x else PyDict [].

(** [(result.get("meta", {}) or {}).get("count")] *)
Definition total_count (v : pyval) : result pyval :=
  let! meta := py_get_default v "meta" (PyDict []) in
  py_get_default (or_empty_dict meta) "count" PyNone.

(** [v > n] for an int [n]. *)
Definition py_gt_int (v : pyval) (n : Z) : result bool :=
  match v with
  | PyInt c => Ret (n <? c)%Z
  | PyBool b => Ret (n <? (if b then 1 else 0))%Z
  | PyFloat f => Ret (float_gt f (Fin (inject_Z n)))
  | _ => Raise (OtherError "TypeError")
  end.

(** [True if total_count and total_count > per_page * page else None] *)
Definition has_next (count : pyval) (per_page page : Z) : result (option bool) :=
  if py_truthy count then
    let! more := py_gt_int count (per_page * page) in
    Ret (if more then Some true else None)
  else Ret None.

(** * Properties *)

(** ** Parameters, parsing, classification *)

Lemma is_None_false (v : pyval) : is_None v = false ↔ v ≠ PyNone.
Proof. destruct v; simpl; split; intros; try congruence; try done. Qed.

Lemma lookup_drop_None (d : gmap string pyval) (k : string) (v : pyval) :
  drop_None d !! k = Some v ↔ d !! k = Some v ∧ v ≠ PyNone.
Proof.
  unfold drop_None. rewrite map_lookup_filter_Some. simpl.
  by rewrite is_None_false.
Qed.

Lemma retryable_status_iff (status : Z) :
  status ∈ RETRYABLE_STATUSES ↔
  status = 408%Z ∨ status = 425%Z ∨ status = 429%Z ∨ status = 500%Z ∨
  status = 502%Z ∨ status = 503%Z ∨ status = 504%Z.
Proof.
  unfold RETRYABLE_STATUSES.
  rewrite !elem_of_union, !elem_of_singleton. tauto.
Qed.

Lemma success_not_retryable (resp : Response) :
  is_success resp = true → status_code resp ∉ RETRYABLE_STATUSES.
Proof.
  unfold is_success. rewrite retryable_status_iff. intros H.
  apply andb_prop in H as [H1 H2].
  apply Z.leb_le in H1, H2. lia.
Qed.

Lemma get_once_success (lib : Lib) (w : World) (self : RequestAPI)
    (path : string) (params : option ParamType)
    (hs : option (gmap string string)) (n : nat) (resp : Response) :
  send w (make_request self path params hs) n = Ret resp →
  is_success resp = true →
  _get_once lib w self path params hs n = _parse lib resp.
Proof.
  intros Hsend Hok. unfold _get_once. rewrite Hsend. simpl.
  unfold _maybe_raise_for_retry.
  rewrite bool_decide_eq_false_2 by by apply success_not_retryable.
  simpl. replace (status_code resp =? 404)%Z with false.
  - simpl. unfold raise_for_status. by rewrite Hok.
  - symmetry. apply Z.eqb_neq. unfold is_success in Hok.
    apply andb_prop in Hok as [H1 H2]. apply Z.leb_le in H1, H2. lia.
Qed.

(** C7. Without parameters the query is the defaults minus the None-valued
    entries; a mapping is laid over the defaults, the caller winning on
    shared keys, and None-valued entries are dropped afterwards; a sequence
    of pairs is handed on as it is; the example of the specification.  The
    merged parameters are the query of the request an attempt sends: the
    attempt fails as the transport fails on that request, and returns the
    parsed body of a successful answer to it. *)
Theorem merge_params_spec (self : RequestAPI) :
  (∃ m, _merge_params self None = QDict m ∧
        ∀ k v, m !! k = Some v ↔ default_params self !! k = Some v ∧ v ≠ PyNone)
  ∧ (∀ p : gmap string pyval, ∃ m,
        _merge_params self (Some (ParamMapping p)) = QDict m ∧
        ∀ k v, m !! k = Some v ↔
               v ≠ PyNone ∧
               (p !! k = Some v ∨ (p !! k = None ∧ default_params self !! k = Some v)))
  ∧ (∀ l, _merge_params self (Some (ParamSequence l)) = QRaw (ParamSequence l))
  ∧ _merge_params
      (RequestAPI_init (base_url self) (headers self)
         {[ "mailto" := PyStr "x@y.com"; "page" := PyInt 1 ]})
      (Some (ParamMapping {[ "page" := PyInt 2 ]}))
    = QDict {[ "mailto" := PyStr "x@y.com"; "page" := PyInt 2 ]}
  ∧ (∀ (lib : Lib) (w : World) (path : string) (params : option ParamType)
       (hs : option (gmap string string)) (n : nat),
       let sent := {| req_path := path;
                      req_headers := merge_headers self hs;
                      req_params := _merge_params self params;
                      req_timeout := timeout self |} in
       req_params (make_request self path params hs) = _merge_params self params
       ∧ (∀ e, send w sent n = Raise e →
               _get_once lib w self path params hs n = Raise e
               ∧ _aget_once lib w self path params hs n = Raise e)
       ∧ (∀ resp, send w sent n = Ret resp → is_success resp = true →
               _get_once lib w self path params hs n = _parse lib resp
               ∧ _aget_once lib w self path params hs n = _parse lib resp)).
Proof.
  split; [|split; [|split; [|split]]].
  - eexists; split; [reflexivity|]. intros k v. apply lookup_drop_None.
  - intros p. eexists; split; [reflexivity|]. intros k v.
    rewrite lookup_drop_None, lookup_union_Some_raw. tauto.
  - reflexivity.
  - vm_compute. reflexivity.
  - intros lib w path params hs n sent. split; [reflexivity|]. split.
    + intros e Hsend. unfold _aget_once, _get_once.
      change (make_request self path params hs) with sent.
      rewrite Hsend. split; reflexivity.
    + intros resp Hsend Hok. unfold _aget_once.
      split; by apply (get_once_success lib w self path params hs n resp).
Qed.

Lemma merge_params_spec_witness :
  _get_once demo_lib page_two_server
    (RequestAPI_init "https://api.openalex.org" ∅
       {[ "mailto" := PyStr "x@y.com"; "page" := PyInt 1 ]})
    "/works" (Some (ParamMapping {[ "page" := PyInt 2 ]})) None 0
  = Ret (PyList [PyInt 1])
  ∧ _get_once demo_lib page_two_server
      (RequestAPI_init "https://api.openalex.org" ∅
         {[ "mailto" := PyStr "x@y.com"; "page" := PyInt 1 ]})
      "/works" None None 0
    = Raise (HTTPStatusError 400).
Proof.
  split; [|vm_compute; reflexivity].
  destruct (merge_params_spec
              (RequestAPI_init "https://api.openalex.org" ∅
                 {[ "mailto" := PyStr "x@y.com"; "page" := PyInt 1 ]}))
    as (_ & _ & _ & _ & Hsent).
  destruct (Hsent demo_lib page_two_server "/works"
              (Some (ParamMapping {[ "page" := PyInt 2 ]})) None 0%nat)
    as (_ & _ & Hok).
  destruct (Hok (response 200 None "[1]")) as [Hget _];
    [vm_compute; reflexivity | reflexivity |].
  rewrite Hget. reflexivity.
Defined.

(** C9, as the code has it. For a successful response the attempt returns
    None for status 204 whatever the body holds; otherwise the decoded JSON
    when the body decodes, and the raw text when the decoder raises
    ValueError.  Any other exception of the decoder leaves the attempt. *)
Theorem parse_is_lenient (lib : Lib) (w : World) (self : RequestAPI)
    (path : string) (params : option ParamType)
    (hs : option (gmap string string)) (n : nat) (resp : Response) :
  send w (make_request self path params hs) n = Ret resp →
  is_success resp = true →
  _aget_once lib w self path params hs n = _get_once lib w self path params hs n
  ∧ (status_code resp = 204%Z →
       _get_once lib w self path params hs n = Ret PyNone)
  ∧ (status_code resp ≠ 204%Z →
       ∀ j, json_loads lib (content resp) = Ret j →
            _get_once lib w self path params hs n = Ret j)
  ∧ (status_code resp ≠ 204%Z →
       ∀ m, json_loads lib (content resp) = Raise (ValueError m) →
            _get_once lib w self path params hs n = Ret (PyStr (content resp)))
  ∧ (status_code resp ≠ 204%Z →
       ∀ e, json_loads lib (content resp) = Raise e →
            (∀ m, e ≠ ValueError m) →
            _get_once lib w self path params hs n = Raise e).
Proof.
  intros Hsend Hok. split; [reflexivity|].
  rewrite (get_once_success lib w self path params hs n resp Hsend Hok).
  unfold _parse, text. split; [|split; [|split]].
  - intros ->. reflexivity.
  - intros Hne j Hj. apply Z.eqb_neq in Hne. by rewrite Hne, Hj.
  - intros Hne m Hm. apply Z.eqb_neq in Hne. by rewrite Hne, Hm.
  - intros Hne e He Hnot. apply Z.eqb_neq in Hne. rewrite Hne, He.
    destruct e; try reflexivity. by destruct (Hnot message).
Qed.

Lemma parse_is_lenient_witness :
  _get_once demo_lib
    (scripted [] (Ret (response 200 None "plain text")) 0 0)
    (client false 3 (1 # 4)) "/works" None None 0
  = Ret (PyStr "plain text").
Proof.
  destruct (parse_is_lenient demo_lib
              (scripted [] (Ret (response 200 None "plain text")) 0 0)
              (client false 3 (1 # 4)) "/works" None None 0
              (response 200 None "plain text"))
    as (_ & _ & _ & Htext & _); [reflexivity | reflexivity |].
  apply (Htext ltac:(discriminate) "Expecting value"). reflexivity.
Defined.

(** C9, as the claim has it, fails: a 200 response whose body is a thousand
    unclosed brackets is no JSON, the decoder raises RecursionError on it,
    [except ValueError] does not catch that, and the attempt and the call
    end in that exception instead of the raw text. *)
Lemma deeply_nested_body_is_an_error :
  is_success (response 200 None deep_body) = true
  ∧ json_loads demo_lib deep_body = Raise (OtherError "RecursionError")
  ∧ _get_once demo_lib (scripted [] (Ret (response 200 None deep_body)) 0 0)
      (client false 3 (1 # 4)) "/works" None None 0
    = Raise (OtherError "RecursionError")
  ∧ get demo_lib (scripted [] (Ret (response 200 None deep_body)) 0 0)
      (client false 3 (1 # 4)) "/works" None None
    = Some (Raise (OtherError "RecursionError"),
            {| attempts := 1; sleeps := [] |})
  ∧ ¬ (∃ v, _get_once demo_lib
              (scripted [] (Ret (response 200 None deep_body)) 0 0)
              (client false 3 (1 # 4)) "/works" None None 0 = Ret v).
Proof.
  assert (Honce : _get_once demo_lib
                    (scripted [] (Ret (response 200 None deep_body)) 0 0)
                    (client false 3 (1 # 4)) "/works" None None 0
                  = Raise (OtherError "RecursionError"))
    by (vm_compute; reflexivity).
  split; [reflexivity|]. split; [vm_compute; reflexivity|].
  split; [exact Honce|]. split; [vm_compute; reflexivity|].
  intros [v Hv]. rewrite Honce in Hv. discriminate Hv.
Qed.

(** ** The Retry-After parser *)

Lemma parse_retry_after_header (lib : Lib) (w : World) (n : nat)
    (resp : Response) (ra : string) :
  resp_headers resp !! "retry-after" = Some ra →
  ra ≠ "" →
  _parse_retry_after lib w n resp =
    match py_float lib ra with
    | Some v => Some v
    | None =>
        match parsedate_to_datetime lib ra with
        | Ret (Some dt) =>
            Some (py_max zero
                    (Fin (seconds_until (wall_us dt) (default 0%Z (tzinfo dt))
                            (utcnow w n))))
        | _ => None
        end
    end.
Proof.
  intros Hh Hne. unfold _parse_retry_after. rewrite Hh.
  destruct ra as [|c ra]; [congruence|].
  destruct (py_float lib (String c ra)); [reflexivity|].
  destruct (parsedate_to_datetime lib (String c ra)) as [[dt|]|e];
    reflexivity.
Qed.

(** C5, as the code has it. A Retry-After value that [float] accepts is
    returned as [float] gave it: nothing is clamped in the parser, a negative
    number comes back negative. *)
Theorem parse_retry_after_numeric (lib : Lib) (w : World) (n : nat)
    (resp : Response) (ra : string) (v : pyfloat) :
  resp_headers resp !! "retry-after" = Some ra →
  ra ≠ "" →
  py_float lib ra = Some v →
  _parse_retry_after lib w n resp = Some v.
Proof.
  intros Hh Hne Hv. rewrite (parse_retry_after_header lib w n resp ra Hh Hne).
  by rewrite Hv.
Qed.

Lemma parse_retry_after_numeric_witness :
  _parse_retry_after demo_lib (scripted [] (Raise (RequestError "")) 0 0) 0
    (response 429 (Some "2") "") = Some (Fin 2).
Proof.
  apply (parse_retry_after_numeric demo_lib _ 0 _ "2");
    [reflexivity | discriminate | reflexivity].
Defined.

(** C5, as the claim has it, fails: for the header value -5 the parser
    answers -5, not max(-5, 0) = 0. *)
Lemma parse_retry_after_negative_unclamped :
  py_float demo_lib "-5" = Some (Fin (-5))
  ∧ _parse_retry_after demo_lib (scripted [] (Raise (RequestError "")) 0 0) 0
      (response 429 (Some "-5") "") = Some (Fin (-5))
  ∧ py_max zero (Fin (-5)) = zero
  ∧ Some (Fin (-5)) ≠ Some (py_max zero (Fin (-5)))
  ∧ ¬ float_nonneg (Fin (-5)).
Proof.
  split; [reflexivity|]. split; [reflexivity|]. split; [reflexivity|].
  split.
  - vm_compute. discriminate.
  - simpl. intros H. apply Qle_bool_iff in H. discriminate.
Qed.

Lemma py_max_zero_fin (x : Q) :
  ∃ d, py_max zero (Fin x) = Fin d ∧ (0 <= d)%Q ∧
       ((x <= 0)%Q → d == 0) ∧ ((0 < x)%Q → d == x).
Proof.
  unfold py_max, zero, float_gt.
  destruct (Qlt_le_dec 0 x) as [Hpos|Hneg].
  - exists x. repeat split; intros; lra.
  - exists 0%Q. repeat split; intros; lra.
Qed.

(** C6. For a Retry-After value that [float] rejects: an HTTP-date gives
    max(0, date - now) in seconds, both read in UTC and a date without zone
    read as UTC, so a date in the past gives 0; a value that is no date
    either gives no hint; so does a missing or empty header.  The parser
    has no other outcome: it is a total function into [option pyfloat]. *)
Theorem parse_retry_after_date (lib : Lib) (w : World) (n : nat) (resp : Response) :
  (resp_headers resp !! "retry-after" = None ∨
   resp_headers resp !! "retry-after" = Some "" →
   _parse_retry_after lib w n resp = None)
  ∧ ∀ ra, resp_headers resp !! "retry-after" = Some ra →
          ra ≠ "" →
          py_float lib ra = None →
    (∀ dt, parsedate_to_datetime lib ra = Ret (Some dt) →
       ∃ d, _parse_retry_after lib w n resp = Some (Fin d) ∧ (0 <= d)%Q ∧
            ((utc_us dt <= utcnow w n)%Z → d == 0) ∧
            ((utcnow w n < utc_us dt)%Z →
               d == (utc_us dt - utcnow w n) # 1000000) ∧
            (tzinfo dt = None → utc_us dt = wall_us dt))
    ∧ (parsedate_to_datetime lib ra = Ret None →
         _parse_retry_after lib w n resp = None)
    ∧ (∀ e, parsedate_to_datetime lib ra = Raise e →
         _parse_retry_after lib w n resp = None).
Proof.
  split.
  - intros [H|H]; unfold _parse_retry_after; by rewrite H.
  - intros ra Hh Hne Hf.
    rewrite (parse_retry_after_header lib w n resp ra Hh Hne), Hf.
    split; [|split].
    + intros dt ->.
      destruct (py_max_zero_fin
                  (seconds_until (wall_us dt) (default 0%Z (tzinfo dt)) (utcnow w n)))
        as (d & Hd & Hpos & Hpast & Hfut).
      exists d. rewrite Hd. split; [reflexivity|]. split; [exact Hpos|].
      unfold seconds_until, utc_us in *.
      split; [|split].
      * intros Hle. apply Hpast. unfold Qle. simpl. lia.
      * intros Hlt. apply Hfut. unfold Qlt. simpl. lia.
      * intros ->. simpl. lia.
    + by intros ->.
    + by intros e ->.
Qed.

Lemma parse_retry_after_date_witness :
  ∃ d, _parse_retry_after demo_lib
         (scripted [] (Raise (RequestError "")) 0 (oct_21_2015 - 3000000)) 0
         (response 503 (Some "Wed, 21 Oct 2015 07:28:00 -0000") "") = Some (Fin d)
       ∧ d == 3.
Proof.
  destruct (parse_retry_after_date demo_lib
              (scripted [] (Raise (RequestError "")) 0 (oct_21_2015 - 3000000)) 0
              (response 503 (Some "Wed, 21 Oct 2015 07:28:00 -0000") ""))
    as [_ H].
  destruct (H "Wed, 21 Oct 2015 07:28:00 -0000") as [Hdate _];
    [reflexivity | discriminate | reflexivity |].
  destruct (Hdate {| wall_us := oct_21_2015; tzinfo := None |})
    as (d & Hd & _ & _ & Hfut & _); [reflexivity|].
  exists d. split; [exact Hd|].
  rewrite Hfut by (vm_compute; reflexivity). reflexivity.
Defined.

(** ** The URL guard *)

Lemma scheme_allowed_iff (s : string) :
  scheme_allowed s = true ↔ s = "http" ∨ s = "https".
Proof.
  unfold scheme_allowed. rewrite bool_decide_eq_true.
  rewrite elem_of_union, !elem_of_singleton. tauto.
Qed.

(** What the guard does with each answer of [validators.url]: a returned
    value is handed on, a raised [validators.ValidationError] becomes False,
    any other exception leaves the guard; the scheme check handed to the
    validator admits http and https and nothing else. *)
Lemma url_guard_cases (lib : Lib) (url : string) :
  (validators_url lib scheme_allowed url = Raise ValidationError →
     validate_url_with_ssrf_guard lib url = Ret (PyBool false))
  ∧ (∀ v, validators_url lib scheme_allowed url = Ret v →
          validate_url_with_ssrf_guard lib url = Ret v)
  ∧ (∀ e, validators_url lib scheme_allowed url = Raise e →
          e ≠ ValidationError →
          validate_url_with_ssrf_guard lib url = Raise e)
  ∧ (∀ s, scheme_allowed s = true ↔ s = "http" ∨ s = "https").
Proof.
  unfold validate_url_with_ssrf_guard.
  split; [|split; [|split]].
  - by intros ->.
  - by intros v ->.
  - intros e -> Hne. by destruct e.
  - apply scheme_allowed_iff.
Qed.

Example url_guard_catches_validation_error :
  validate_url_with_ssrf_guard (lib_with url_raising) "ftp://example.com"
    = Ret (PyBool false).
Proof. reflexivity. Qed.

Example url_guard_lets_other_exceptions_through :
  validate_url_with_ssrf_guard (lib_with url_crashing) "https://example.com/doc"
    = Raise (OtherError "RecursionError").
Proof. reflexivity. Qed.

(** C8, on the code. When [validators.url] rejects a URL by answering its
    ValidationError object, which is what it does unless it was asked to
    raise, the guard hands that object on: the answer is falsy, yet it is
    not a boolean.  Only a raised ValidationError is turned into False. *)
Theorem url_guard_returns_validator_object (lib : Lib) (url : string) :
  validators_url lib scheme_allowed url = Ret PyValidationError →
  validate_url_with_ssrf_guard lib url = Ret PyValidationError
  ∧ py_truthy PyValidationError = false
  ∧ ∀ b : bool, validate_url_with_ssrf_guard lib url ≠ Ret (PyBool b).
Proof.
  intros H. unfold validate_url_with_ssrf_guard. rewrite H.
  split; [reflexivity|]. split; [reflexivity|]. intros b. discriminate.
Qed.

Lemma url_guard_returns_validator_object_witness :
  validate_url_with_ssrf_guard (lib_with url_rejecting) "ftp://example.com"
    = Ret PyValidationError
  ∧ validate_url_with_ssrf_guard (lib_with url_rejecting) "ftp://example.com"
    ≠ Ret (PyBool false).
Proof.
  destruct (url_guard_returns_validator_object
              (lib_with url_rejecting) "ftp://example.com")
    as (Hobj & _ & Hbool); [reflexivity|].
  split; [exact Hobj | apply Hbool].
Defined.

(** ** The retry loop *)

Section Engine.
Context (w : World) (self : RequestAPI) (fn : nat → result pyval).

Lemma wait_depends_on_attempt (rs : RetryCallState) :
  wait (_retrying w self) rs = computed_wait w self (attempt_number rs).
Proof. reflexivity. Qed.

(** The hook writes the floored hint into [next_action.sleep]. *)
Lemma hook_sets_next_action (rs : RetryCallState) (status : Z) (h : pyfloat) :
  outcome rs = Some (Raise (RetryableStatus status (Some h))) →
  next_action_sleep (_maybe_sleep_until_retry_after rs) = Some (py_max zero h).
Proof. intros H. unfold _maybe_sleep_until_retry_after. by rewrite H. Qed.

(** The duration [iter] hands to the sleep is the computed wait, whatever
    the hook left in [next_action.sleep]. *)
Lemma iter_sleep_is_computed (rs : RetryCallState) (d : Q) (rs' : RetryCallState) :
  iter (_retrying w self) rs = (DoSleep d, rs') →
  d = computed_wait w self (attempt_number rs).
Proof.
  unfold iter. destruct (outcome rs) as [fut|]; [|discriminate].
  destruct (negb _); [destruct fut; discriminate|].
  destruct (stop _ _).
  - destruct fut; simpl; discriminate.
  - intros [= <- _]. reflexivity.
Qed.

(** The blocking loop or the awaited one. *)
Context (r : Retrying).
Hypothesis Hr : r = _retrying w self ∨ r = _aretrying w self.

(** Two turns of the loop: an attempt, the decision taken on its outcome
    and, when that is to retry, the sleep. *)
Lemma Retrying_call_turns (fuel : nat) (rs : RetryCallState) (t : Trace) :
  outcome rs = None →
  Retrying_call (S (S fuel)) r fn rs t =
    let o := fn (attempts t) in
    if negb (retryable_outcome o)
       || (max_retries self <=? Z.of_nat (attempt_number rs))%Z
    then Some (o, log_attempt t)
    else match sleep r (computed_wait w self (attempt_number rs)) with
         | Ret _ =>
             Retrying_call fuel r fn
               (state_at_idle (S (attempt_number rs))
                  (idle_for rs + computed_wait w self (attempt_number rs)))
               (log_sleep (log_attempt t) (computed_wait w self (attempt_number rs)))
         | Raise e => Some (Raise e, log_attempt t)
         end.
Proof.
  intros Hnone.
  destruct Hr as [-> | ->];
    (cbn [Retrying_call]; unfold iter at 1; rewrite Hnone;
     cbv zeta; destruct (fn (attempts t)) as [v|e]; [reflexivity|];
     unfold iter, _retrying, _aretrying, retry_if_exception_type,
       stop_after_attempt, set_outcome;
     cbn [outcome retry stop reraise wait before_sleep sleep attempt_number
          retryable_outcome];
     destruct (is_retryable_exception e); [|reflexivity];
     cbn [negb orb];
     destruct (max_retries self <=? Z.of_nat (attempt_number rs))%Z;
       [reflexivity|];
     unfold _maybe_sleep_until_retry_after, set_next_action;
     cbn [outcome];
     destruct e as [status ra|?|?| |?|?|?|?|?]; try reflexivity;
     destruct ra; reflexivity).
Qed.

(** An outcome that is not retried ends the loop at once: no wait is
    computed and nothing is slept. *)
Lemma Retrying_call_first_final (fuel : nat) :
  retryable_outcome (fn 0) = false →
  Retrying_call (S (S fuel)) r fn initial_state empty_trace =
    Some (fn 0, {| attempts := 1; sleeps := [] |}).
Proof.
  intros Hfinal. rewrite Retrying_call_turns by reflexivity.
  cbv zeta. cbn [attempts empty_trace]. rewrite Hfinal. reflexivity.
Qed.

(** From here on every sleep returns. *)
Hypothesis Hsleep : ∀ k, sleep r (computed_wait w self k) = Ret tt.

Lemma Retrying_call_round (fuel : nat) (rs : RetryCallState) (t : Trace) :
  outcome rs = None →
  Retrying_call (S (S fuel)) r fn rs t =
    let o := fn (attempts t) in
    if negb (retryable_outcome o)
       || (max_retries self <=? Z.of_nat (attempt_number rs))%Z
    then Some (o, log_attempt t)
    else Retrying_call fuel r fn
           (state_at_idle (S (attempt_number rs))
              (idle_for rs + computed_wait w self (attempt_number rs)))
           (log_sleep (log_attempt t) (computed_wait w self (attempt_number rs))).
Proof.
  intros Hnone. rewrite Retrying_call_turns by exact Hnone.
  by rewrite Hsleep.
Qed.

(** What a finished call looks like, from a state about to attempt. *)
Lemma Retrying_call_sound (fuel : nat) :
  ∀ (rs : RetryCallState) (t : Trace) (res : result pyval) (t' : Trace),
    outcome rs = None →
    attempt_number rs = S (attempts t) →
    Retrying_call fuel r fn rs t = Some (res, t') →
    attempts t < attempts t'
    ∧ res = fn (attempts t' - 1)
    ∧ (retryable_outcome res = true →
         (max_retries self <= Z.of_nat (attempts t'))%Z)
    ∧ (∀ i, attempts t ≤ i < attempts t' - 1 →
            retryable_outcome (fn i) = true ∧
            (Z.of_nat (S i) < max_retries self)%Z)
    ∧ sleeps t' = (sleeps t ++
        map (computed_wait w self)
            (seq (S (attempts t)) (attempts t' - 1 - attempts t)))%list.
Proof.
  induction fuel as [fuel IH] using lt_wf_ind.
  intros rs t res t' Hnone Hnum Hcall.
  destruct fuel as [|[|fuel]].
  - discriminate.
  - cbn [Retrying_call] in Hcall. unfold iter in Hcall.
    rewrite Hnone in Hcall. discriminate.
  - rewrite Retrying_call_round in Hcall by exact Hnone. cbv zeta in Hcall.
    destruct (negb (retryable_outcome (fn (attempts t)))
              || (max_retries self <=? Z.of_nat (attempt_number rs))%Z) eqn:Hend.
    + injection Hcall as <- <-. cbn [attempts log_attempt sleeps].
      replace (S (attempts t) - 1) with (attempts t) by lia.
      replace (attempts t - attempts t) with 0 by lia.
      split; [lia|]. split; [reflexivity|]. split.
      * intros Hret. rewrite Hret in Hend. simpl in Hend.
        apply Z.leb_le in Hend. lia.
      * split; [intros i Hi; lia|]. simpl. by rewrite app_nil_r.
    + apply orb_false_iff in Hend as [Hret Hstop].
      apply negb_false_iff in Hret. apply Z.leb_gt in Hstop.
      apply IH in Hcall; [|lia|reflexivity|cbn; lia].
      cbn [attempts log_sleep log_attempt sleeps] in Hcall.
      destruct Hcall as (Hlt & Hres & Hmax & Hall & Hsl).
      split; [lia|]. split; [exact Hres|]. split; [exact Hmax|]. split.
      * intros i Hi. destruct (decide (i = attempts t)) as [->|Hne].
        -- split; [exact Hret|lia].
        -- apply Hall. lia.
      * rewrite Hsl, <- app_assoc. f_equal.
        replace (attempts t' - 1 - attempts t)
          with (S (attempts t' - 1 - S (attempts t))) by lia.
        cbn [seq map app]. by rewrite Hnum.
Qed.

(** The loop ends within two turns per attempt still allowed. *)
Lemma Retrying_call_total (d : nat) :
  ∀ (fuel : nat) (rs : RetryCallState) (t : Trace),
    outcome rs = None →
    (Z.max 1 (max_retries self) <= Z.of_nat (attempt_number rs + d))%Z →
    (2 * S d ≤ fuel)%nat →
    ∃ out, Retrying_call fuel r fn rs t = Some out.
Proof.
  induction d as [|d IH]; intros fuel rs t Hnone Hmax Hfuel.
  - destruct fuel as [|[|fuel]]; [lia|lia|].
    rewrite Retrying_call_round by exact Hnone. cbv zeta.
    replace (max_retries self <=? Z.of_nat (attempt_number rs))%Z with true.
    + rewrite orb_true_r. eauto.
    + symmetry. apply Z.leb_le. lia.
  - destruct fuel as [|[|fuel]]; [lia|lia|].
    rewrite Retrying_call_round by exact Hnone. cbv zeta.
    destruct (negb _ || _); [eauto|].
    apply IH; [reflexivity| |lia]. cbn [attempt_number state_at_idle]. lia.
Qed.

(** Every call ends, and ends as follows: the attempts before the last
    failed in a retried way with attempts left, the result is the outcome of
    the last attempt, a retried failure is final only once [max_retries]
    attempts are made, and the sleeps are the computed waits. *)
Lemma Retrying_call_characterised :
  ∃ res t,
    Retrying_call (enough_fuel self) r fn initial_state empty_trace = Some (res, t)
    ∧ (1 ≤ attempts t)%nat
    ∧ res = fn (attempts t - 1)
    ∧ (retryable_outcome res = true →
         (max_retries self <= Z.of_nat (attempts t))%Z)
    ∧ (∀ i, (i < attempts t - 1)%nat →
            retryable_outcome (fn i) = true ∧
            (Z.of_nat (S i) < max_retries self)%Z)
    ∧ sleeps t = map (computed_wait w self) (seq 1 (attempts t - 1)).
Proof.
  destruct (Retrying_call_total
              (Z.to_nat (Z.max 1 (max_retries self)) - 1)
              (enough_fuel self) initial_state empty_trace)
    as [[res t] Hcall].
  - reflexivity.
  - cbn [attempt_number initial_state]. lia.
  - unfold enough_fuel. lia.
  - exists res, t. split; [exact Hcall|].
    apply Retrying_call_sound in Hcall; [|reflexivity|reflexivity].
    cbn [attempts sleeps empty_trace app] in Hcall.
    destruct Hcall as (Hlt & Hres & Hmax & Hall & Hsl).
    split; [lia|]. split; [exact Hres|]. split; [exact Hmax|]. split.
    + intros i Hi. apply Hall. lia.
    + rewrite Hsl. by replace (attempts t - 1 - 0)%nat with (attempts t - 1)%nat by lia.
Qed.

(** When every attempt fails in a retried way and at least one attempt is
    allowed, exactly [max_retries] attempts are made and the failure of the
    last one is raised. *)
Lemma Retrying_call_exhausted :
  (1 <= max_retries self)%Z →
  (∀ i, retryable_outcome (fn i) = true) →
  ∃ e t,
    Retrying_call (enough_fuel self) r fn initial_state empty_trace
      = Some (Raise e, t)
    ∧ Z.of_nat (attempts t) = max_retries self
    ∧ fn (attempts t - 1) = Raise e
    ∧ is_retryable_exception e = true
    ∧ length (sleeps t) = (attempts t - 1)%nat.
Proof.
  intros Hm Hfail.
  destruct Retrying_call_characterised
    as (res & t & Hget & H1 & Hres & Hmax & Hall & Hsl).
  pose proof (Hfail (attempts t - 1)%nat) as Hlast. rewrite <- Hres in Hlast.
  destruct res as [v|e]; [discriminate|].
  exists e, t. split; [exact Hget|].
  split; [|split; [by rewrite Hres|split; [exact Hlast|]]].
  - specialize (Hmax Hlast).
    destruct (decide (attempts t = 1%nat)) as [E|E]; [lia|].
    destruct (Hall (attempts t - 2)%nat) as [_ Hlt]; lia.
  - by rewrite Hsl, length_map, length_seq.
Qed.

End Engine.

(** The awaited sleep returns for every duration. *)
Lemma asyncio_sleep_returns (w : World) (self : RequestAPI) (k : nat) :
  sleep (_aretrying w self) (computed_wait w self k) = Ret tt.
Proof. reflexivity. Qed.

(** With a jitter bound and random draws that are not negative, no computed
    wait is negative. *)
Lemma computed_wait_nonneg (w : World) (self : RequestAPI) (k : nat) :
  (0 <= jitter_max_seconds self)%Q →
  (∀ i, (0 <= random w i)%Q) →
  (0 <= computed_wait w self k)%Q.
Proof.
  intros Hjmax Hrand.
  unfold computed_wait. cbn [wait _retrying]. unfold wait_combine, wait_random,
    wait_exponential.
  cbn [attempt_number state_at].
  pose proof (Hrand (k - 1)%nat) as Hdraw.
  set (e := Qmin _ 8).
  destruct (Q.max_spec 0 0) as [[H3 H4]|[H3 H4]];
    destruct (Q.max_spec (Qmax 0 0) e) as [[H5 H6]|[H5 H6]]; nra.
Qed.

(** So the blocking sleep returns for every computed wait. *)
Lemma time_sleep_returns (w : World) (self : RequestAPI) (k : nat) :
  (0 <= jitter_max_seconds self)%Q →
  (∀ i, (0 <= random w i)%Q) →
  sleep (_retrying w self) (computed_wait w self k) = Ret tt.
Proof.
  intros Hjmax Hrand. cbn [sleep _retrying]. unfold time_sleep.
  pose proof (computed_wait_nonneg w self k Hjmax Hrand) as Hpos.
  destruct (Qlt_le_dec (computed_wait w self k) 0) as [Hneg|_]; [lra|reflexivity].
Qed.

(** A negative jitter bound can make a computed wait negative; the blocking
    sleep then raises ValueError and the blocking call ends in it after one
    attempt, while the awaited call goes on to its last attempt. *)
Example negative_wait_ends_blocking_call :
  let w := scripted [] (Ret (response 503 None "")) (1 # 2) 0 in
  let api := client false 3 (-4) in
  computed_wait w api 1 == - (3 # 2)
  ∧ get demo_lib w api "/works" None None
    = Some (Raise (ValueError "sleep length must be non-negative"),
            {| attempts := 1; sleeps := [] |})
  ∧ ∃ t, aget demo_lib w api "/works" None None
           = Some (Raise (RetryableStatus 503 None), t)
         ∧ attempts t = 3%nat.
Proof.
  cbv zeta. split; [vm_compute; reflexivity|].
  split; [vm_compute; reflexivity|].
  eexists. split; [vm_compute; reflexivity|]. reflexivity.
Qed.

Lemma aget_characterised (lib : Lib) (w : World) (self : RequestAPI)
    (path : string) (params : option ParamType)
    (hs : option (gmap string string)) :
  ∃ res t,
    aget lib w self path params hs = Some (res, t)
    ∧ (1 ≤ attempts t)%nat
    ∧ res = _get_once lib w self path params hs (attempts t - 1)
    ∧ (retryable_outcome res = true →
         (max_retries self <= Z.of_nat (attempts t))%Z)
    ∧ (∀ i, (i < attempts t - 1)%nat →
            retryable_outcome (_get_once lib w self path params hs i) = true ∧
            (Z.of_nat (S i) < max_retries self)%Z)
    ∧ sleeps t = map (computed_wait w self) (seq 1 (attempts t - 1)).
Proof.
  exact (Retrying_call_characterised w self
           (_aget_once lib w self path params hs) (_aretrying w self)
           (or_intror eq_refl) (asyncio_sleep_returns w self)).
Qed.

Lemma get_characterised (lib : Lib) (w : World) (self : RequestAPI)
    (path : string) (params : option ParamType)
    (hs : option (gmap string string)) :
  (0 <= jitter_max_seconds self)%Q →
  (∀ i, (0 <= random w i)%Q) →
  ∃ res t,
    get lib w self path params hs = Some (res, t)
    ∧ (1 ≤ attempts t)%nat
    ∧ res = _get_once lib w self path params hs (attempts t - 1)
    ∧ (retryable_outcome res = true →
         (max_retries self <= Z.of_nat (attempts t))%Z)
    ∧ (∀ i, (i < attempts t - 1)%nat →
            retryable_outcome (_get_once lib w self path params hs i) = true ∧
            (Z.of_nat (S i) < max_retries self)%Z)
    ∧ sleeps t = map (computed_wait w self) (seq 1 (attempts t - 1)).
Proof.
  intros Hjmax Hrand.
  exact (Retrying_call_characterised w self
           (_get_once lib w self path params hs) (_retrying w self)
           (or_introl eq_refl)
           (λ k, time_sleep_returns w self k Hjmax Hrand)).
Qed.

(** The two loops differ in their sleep alone: where every blocking sleep
    returns, they run alike. *)
Lemma Retrying_call_flavours (w : World) (self : RequestAPI)
    (fn : nat → result pyval) (fuel : nat) :
  (0 <= jitter_max_seconds self)%Q →
  (∀ i, (0 <= random w i)%Q) →
  ∀ (rs : RetryCallState) (t : Trace),
    outcome rs = None →
    Retrying_call fuel (_retrying w self) fn rs t
    = Retrying_call fuel (_aretrying w self) fn rs t.
Proof.
  intros Hjmax Hrand.
  induction fuel as [fuel IH] using lt_wf_ind.
  intros rs t Hnone.
  destruct fuel as [|[|fuel]].
  - reflexivity.
  - cbn [Retrying_call]. unfold iter. rewrite Hnone. reflexivity.
  - rewrite (Retrying_call_round w self fn (_retrying w self)
               (or_introl eq_refl)
               (λ k, time_sleep_returns w self k Hjmax Hrand)) by exact Hnone.
    rewrite (Retrying_call_round w self fn (_aretrying w self)
               (or_intror eq_refl) (asyncio_sleep_returns w self))
      by exact Hnone.
    cbv zeta. destruct (negb _ || _); [reflexivity|].
    apply IH; [lia|reflexivity].
Qed.

Lemma get_is_aget (lib : Lib) (w : World) (self : RequestAPI) (path : string)
    (params : option ParamType) (hs : option (gmap string string)) :
  (0 <= jitter_max_seconds self)%Q →
  (∀ i, (0 <= random w i)%Q) →
  get lib w self path params hs = aget lib w self path params hs.
Proof.
  intros Hjmax Hrand. unfold get, aget.
  by apply Retrying_call_flavours.
Qed.

(** An outcome that is not retried ends the call after one attempt. *)
Lemma get_first_final (lib : Lib) (w : World) (self : RequestAPI)
    (path : string) (params : option ParamType)
    (hs : option (gmap string string)) :
  retryable_outcome (_get_once lib w self path params hs 0) = false →
  get lib w self path params hs =
    Some (_get_once lib w self path params hs 0, {| attempts := 1; sleeps := [] |}).
Proof.
  intros Hfinal. unfold get, enough_fuel.
  destruct (Z.to_nat (Z.max 1 (max_retries self))) as [|m] eqn:Hm; [lia|].
  replace (2 * S m)%nat with (S (S (2 * m))) by lia.
  by apply (Retrying_call_first_final w self
              (_get_once lib w self path params hs)); [left|].
Qed.

Lemma aget_first_final (lib : Lib) (w : World) (self : RequestAPI)
    (path : string) (params : option ParamType)
    (hs : option (gmap string string)) :
  retryable_outcome (_get_once lib w self path params hs 0) = false →
  aget lib w self path params hs =
    Some (_get_once lib w self path params hs 0, {| attempts := 1; sleeps := [] |}).
Proof.
  intros Hfinal. unfold aget, enough_fuel.
  destruct (Z.to_nat (Z.max 1 (max_retries self))) as [|m] eqn:Hm; [lia|].
  replace (2 * S m)%nat with (S (S (2 * m))) by lia.
  by apply (Retrying_call_first_final w self
              (_aget_once lib w self path params hs)); [right|].
Qed.

Lemma aget_exhausted (lib : Lib) (w : World) (self : RequestAPI)
    (path : string) (params : option ParamType)
    (hs : option (gmap string string)) :
  (1 <= max_retries self)%Z →
  (∀ i, retryable_outcome (_get_once lib w self path params hs i) = true) →
  ∃ e t,
    aget lib w self path params hs = Some (Raise e, t)
    ∧ Z.of_nat (attempts t) = max_retries self
    ∧ _get_once lib w self path params hs (attempts t - 1) = Raise e
    ∧ is_retryable_exception e = true
    ∧ length (sleeps t) = (attempts t - 1)%nat.
Proof.
  exact (Retrying_call_exhausted w self
           (_aget_once lib w self path params hs) (_aretrying w self)
           (or_intror eq_refl) (asyncio_sleep_returns w self)).
Qed.

Lemma get_exhausted (lib : Lib) (w : World) (self : RequestAPI)
    (path : string) (params : option ParamType)
    (hs : option (gmap string string)) :
  (0 <= jitter_max_seconds self)%Q →
  (∀ i, (0 <= random w i)%Q) →
  (1 <= max_retries self)%Z →
  (∀ i, retryable_outcome (_get_once lib w self path params hs i) = true) →
  ∃ e t,
    get lib w self path params hs = Some (Raise e, t)
    ∧ Z.of_nat (attempts t) = max_retries self
    ∧ _get_once lib w self path params hs (attempts t - 1) = Raise e
    ∧ is_retryable_exception e = true
    ∧ length (sleeps t) = (attempts t - 1)%nat.
Proof.
  intros Hjmax Hrand.
  exact (Retrying_call_exhausted w self
           (_get_once lib w self path params hs) (_retrying w self)
           (or_introl eq_refl)
           (λ k, time_sleep_returns w self k Hjmax Hrand)).
Qed.

(** ** Classification of a response *)


Lemma get_once_not_found (lib : Lib) (w : World) (self : RequestAPI)
    (path : string) (params : option ParamType)
    (hs : option (gmap string string)) (n : nat) (resp : Response) :
  send w (make_request self path params hs) n = Ret resp →
  status_code resp = 404%Z →
  return_none_on_404 self = true →
  _get_once lib w self path params hs n = Ret PyNone.
Proof.
  intros Hsend Hst Hflag. unfold _get_once. rewrite Hsend. simpl.
  unfold _maybe_raise_for_retry. rewrite bool_decide_eq_false_2.
  - simpl. by rewrite Hst, Hflag.
  - rewrite retryable_status_iff. lia.
Qed.

Lemma get_once_fatal (lib : Lib) (w : World) (self : RequestAPI)
    (path : string) (params : option ParamType)
    (hs : option (gmap string string)) (n : nat) (resp : Response) :
  send w (make_request self path params hs) n = Ret resp →
  status_code resp ∉ RETRYABLE_STATUSES →
  ¬ (status_code resp = 404%Z ∧ return_none_on_404 self = true) →
  is_success resp = false →
  _get_once lib w self path params hs n = Raise (HTTPStatusError (status_code resp)).
Proof.
  intros Hsend Hnot H404 Hfail. unfold _get_once. rewrite Hsend. simpl.
  unfold _maybe_raise_for_retry. rewrite bool_decide_eq_false_2 by exact Hnot.
  simpl. replace ((status_code resp =? 404)%Z && return_none_on_404 self)
    with false.
  - unfold raise_for_status. by rewrite Hfail.
  - symmetry. apply andb_false_iff.
    destruct (Z.eqb_spec (status_code resp) 404); [|by left].
    right. destruct (return_none_on_404 self); [tauto|reflexivity].
Qed.




(** ** The backoff schedule *)

Lemma backoff_spec_bounds (i : nat) :
  (0 < backoff_spec i)%Q ∧ (backoff_spec i <= 8)%Q.
Proof.
  induction i as [|i [IHpos IHle]]; cbn [backoff_spec].
  - split; lra.
  - destruct (Q.min_spec (2 * backoff_spec i) 8) as [[H1 H2]|[H1 H2]];
      split; lra.
Qed.

Lemma backoff_spec_monotone (i : nat) :
  (backoff_spec i <= backoff_spec (S i))%Q.
Proof.
  destruct (backoff_spec_bounds i) as [Hpos Hle]. cbn [backoff_spec].
  destruct (Q.min_spec (2 * backoff_spec i) 8) as [[H1 H2]|[H1 H2]]; lra.
Qed.

(** The closed form tenacity computes agrees with the doubling of the
    specification. *)
Lemma wait_exponential_is_backoff_spec (i : nat) :
  wait_exponential (1 # 2) 8 (state_at (S i)) == backoff_spec i.
Proof.
  unfold wait_exponential. cbn [attempt_number state_at].
  replace (Z.of_nat (S i) - 1)%Z with (Z.of_nat i) by lia.
  assert (Hclosed : backoff_spec i == Qmin ((1 # 2) * inject_Z (2 ^ Z.of_nat i)) 8
                    ∧ (0 < inject_Z (2 ^ Z.of_nat i))%Q).
  { induction i as [|i [IH IHpos]].
    - split; [|reflexivity]. cbn [backoff_spec].
      change (inject_Z (2 ^ Z.of_nat 0)) with 1%Q.
      destruct (Q.min_spec ((1 # 2) * 1) 8) as [[H1 H2]|[H1 H2]]; lra.
    - replace (2 ^ Z.of_nat (S i))%Z with (2 * 2 ^ Z.of_nat i)%Z
        by (rewrite Nat2Z.inj_succ, Z.pow_succ_r; lia).
      rewrite inject_Z_mult. change (inject_Z 2) with 2%Q.
      split; [|lra]. cbn [backoff_spec].
      set (e := inject_Z (2 ^ Z.of_nat i)) in *.
      destruct (Q.min_spec ((1 # 2) * e) 8) as [[H1 H2]|[H1 H2]];
        destruct (Q.min_spec (2 * backoff_spec i) 8) as [[H3 H4]|[H3 H4]];
        destruct (Q.min_spec ((1 # 2) * (2 * e)) 8) as [[H5 H6]|[H5 H6]]; lra. }
  destruct Hclosed as [Hclosed Hpos].
  set (e := inject_Z (2 ^ Z.of_nat i)) in *.
  destruct (Q.min_spec ((1 # 2) * e) 8) as [[H1 H2]|[H1 H2]];
    destruct (Q.max_spec 0 0) as [[H3 H4]|[H3 H4]];
    destruct (Q.max_spec (Qmax 0 0) (Qmin ((1 # 2) * e) 8)) as [[H5 H6]|[H5 H6]];
    lra.
Qed.

(** The wait after attempt [i + 1], that is before retry [i], is the backoff
    of the specification plus the jitter drawn for that retry. *)
Lemma computed_wait_is_backoff_plus_jitter (w : World) (self : RequestAPI) (i : nat) :
  computed_wait w self (S i) == backoff_spec i + jitter w self i.
Proof.
  unfold computed_wait, jitter. cbn [wait _retrying]. unfold wait_combine.
  rewrite wait_exponential_is_backoff_spec.
  unfold wait_random. cbn [attempt_number state_at].
  replace (S i - 1)%nat with i by lia. ring.
Qed.

Lemma jitter_bounds (w : World) (self : RequestAPI) (i : nat) :
  (0 <= jitter_max_seconds self)%Q →
  (0 <= random w i)%Q → (random w i < 1)%Q →
  (0 <= jitter w self i)%Q ∧ (jitter w self i <= jitter_max_seconds self)%Q.
Proof. unfold jitter. intros; split; nra. Qed.

Lemma nth_map_seq (f : nat → Q) (n : nat) :
  ∀ (s i : nat), (i < n)%nat → nth i (map f (seq s n)) 0%Q = f (s + i)%nat.
Proof.
  induction n as [|n IH]; intros s i Hi; [lia|].
  destruct i as [|i]; cbn [seq map nth].
  - f_equal. lia.
  - rewrite IH by lia. f_equal. lia.
Qed.

(** C4. In a call where no failure carried a Retry-After hint, the wait
    before the retry number [i] (counted from 0) is the backoff of the
    specification, 0.5 doubled [i] times and capped at 8, plus a jitter that
    lies between 0 and [jitter_max_seconds]; the backoff never decreases from
    one retry to the next.  (The jitter is [random() * jitter_max_seconds];
    that the draw is uniform is a property of the random source.  The
    hypothesis on the hints is the scope of the statement; the schedule is
    the same without it, see [first_sleep_ignores_hint].) *)
Theorem backoff_schedule (lib : Lib) (w : World) (self : RequestAPI)
    (path : string) (params : option ParamType)
    (hs : option (gmap string string)) (res : result pyval) (t : Trace) :
  (0 <= jitter_max_seconds self)%Q →
  (∀ i, (0 <= random w i)%Q ∧ (random w i < 1)%Q) →
  (∀ n status ra,
     _get_once lib w self path params hs n = Raise (RetryableStatus status ra) →
     ra = None) →
  get lib w self path params hs = Some (res, t)
  ∨ aget lib w self path params hs = Some (res, t) →
  length (sleeps t) = (attempts t - 1)%nat
  ∧ (∀ i, (i < length (sleeps t))%nat →
       ∃ j, nth i (sleeps t) 0%Q == backoff_spec i + j
            ∧ j == random w i * jitter_max_seconds self
            ∧ (0 <= j)%Q ∧ (j <= jitter_max_seconds self)%Q)
  ∧ backoff_spec 0 == 1 # 2
  ∧ (∀ i, backoff_spec (S i) == Qmin (2 * backoff_spec i) 8)
  ∧ (∀ i, (backoff_spec i <= backoff_spec (S i))%Q)
  ∧ (∀ i, (backoff_spec i <= 8)%Q).
Proof.
  intros Hjmax Hrand _ Hcall.
  assert (Hget : aget lib w self path params hs = Some (res, t)).
  { destruct Hcall as [H|H]; [|exact H].
    rewrite <- H. symmetry. apply get_is_aget; [exact Hjmax|].
    intros i. apply Hrand. }
  destruct (aget_characterised lib w self path params hs)
    as (res' & t' & Hget' & _ & _ & _ & _ & Hsl).
  rewrite Hget in Hget'. injection Hget' as <- <-.
  assert (Hlen : length (sleeps t) = (attempts t - 1)%nat)
    by (by rewrite Hsl, length_map, length_seq).
  split; [exact Hlen|]. split; [|split; [|split; [|split]]].
  - intros i Hi. exists (jitter w self i).
    rewrite Hsl, nth_map_seq by lia. cbn [Nat.add].
    split; [apply computed_wait_is_backoff_plus_jitter|].
    split; [reflexivity|].
    destruct (Hrand i). by apply jitter_bounds.
  - reflexivity.
  - intros i. reflexivity.
  - apply backoff_spec_monotone.
  - intros i. apply backoff_spec_bounds.
Qed.

Lemma backoff_schedule_witness :
  ∃ res t,
    get demo_lib (scripted [] (Ret (response 429 None "")) (1 # 2) 0)
      (client false 7 (1 # 4)) "/works" None None = Some (res, t)
    ∧ length (sleeps t) = 6%nat
    ∧ ∃ j, nth 5 (sleeps t) 0%Q == backoff_spec 5 + j ∧ j == 1 # 8.
Proof.
  eexists _, _. split; [vm_compute; reflexivity|].
  edestruct (backoff_schedule demo_lib
               (scripted [] (Ret (response 429 None "")) (1 # 2) 0)
               (client false 7 (1 # 4)) "/works" None None)
    as (Hlen & Hnth & _).
  - cbn. lra.
  - intros i. cbn. lra.
  - intros n status ra. destruct n; vm_compute; by intros [= _ <-].
  - left. vm_compute. reflexivity.
  - split; [exact Hlen|].
    destruct (Hnth 5%nat) as (j & Hj & Hjv & _); [cbn; lia|].
    exists j. split; [exact Hj|]. rewrite Hjv. reflexivity.
Defined.

(** ** The Retry-After hint and the sleep *)

(** Whatever hint the first failure carried, the first sleep of a call that
    retries is the computed wait: backoff 0.5 plus the jitter. *)
Lemma first_sleep_ignores_hint (lib : Lib) (w : World) (self : RequestAPI)
    (path : string) (params : option ParamType)
    (hs : option (gmap string string)) (status : Z) (hint : option pyfloat) :
  _get_once lib w self path params hs 0 = Raise (RetryableStatus status hint) →
  (1 < max_retries self)%Z →
  ∃ res t d rest,
    aget lib w self path params hs = Some (res, t)
    ∧ ((0 <= jitter_max_seconds self)%Q → (∀ i, (0 <= random w i)%Q) →
       get lib w self path params hs = Some (res, t))
    ∧ sleeps t = d :: rest
    ∧ d == (1 # 2) + random w 0 * jitter_max_seconds self.
Proof.
  intros Hfirst Hm.
  destruct (aget_characterised lib w self path params hs)
    as (res & t & Hget & H1 & Hres & Hmax & _ & Hsl).
  destruct (decide (attempts t = 1%nat)) as [E|E].
  - rewrite E in Hres. cbn in Hres. rewrite Hfirst in Hres. subst res.
    specialize (Hmax eq_refl). lia.
  - destruct (attempts t) as [|[|a]] eqn:Ha; [lia|lia|].
    cbn [Nat.sub seq map] in Hsl.
    eexists res, t, _, _. split; [exact Hget|]. split.
    + intros Hjmax Hrand. by rewrite get_is_aget.
    + split; [exact Hsl|].
      rewrite computed_wait_is_backoff_plus_jitter. reflexivity.
Qed.

(** C1, on the code. A first answer 429 with [Retry-After: 2], then a 200:
    the attempt raises the retryable signal with the hint 2; the hook stores
    max(0, 2) = 2 in [next_action.sleep]; the loop has already fixed the
    duration it sleeps, the computed wait 0.5 (the jitter draw is 0 here),
    and sleeps that, not 2.  Both flavours. *)
Theorem retry_after_hint_is_not_slept :
  let w := scripted [Ret (response 429 (Some "2") "")]
                    (Ret (response 200 None "null")) 0 0 in
  let api := client false 3 (1 # 4) in
  let failed := set_outcome initial_state
                  (_get_once demo_lib w api "/works" None None 0) in
  _get_once demo_lib w api "/works" None None 0
    = Raise (RetryableStatus 429 (Some (Fin 2)))
  ∧ next_action_sleep (snd (iter (_retrying w api) failed)) = Some (Fin 2)
  ∧ (∃ d, fst (iter (_retrying w api) failed) = DoSleep d ∧ d == 1 # 2)
  ∧ (∃ d, get demo_lib w api "/works" None None
            = Some (Ret PyNone, {| attempts := 2; sleeps := [d] |})
          ∧ aget demo_lib w api "/works" None None
            = Some (Ret PyNone, {| attempts := 2; sleeps := [d] |})
          ∧ d == 1 # 2 ∧ ¬ d == 2).
Proof.
  cbv zeta. split; [vm_compute; reflexivity|].
  split; [vm_compute; reflexivity|].
  split.
  - eexists. split; [vm_compute; reflexivity|]. reflexivity.
  - eexists. split; [vm_compute; reflexivity|].
    split; [vm_compute; reflexivity|].
    split; [reflexivity|]. intros H. discriminate H.
Qed.

(** ** The handlers *)

(** An exception that is neither [httpx.HTTPStatusError] nor
    [httpx.RequestError] passes both [except] clauses of a handler. *)
Lemma except_httpx_passes (wrap : string → exn) (e : exn) :
  (∀ status, e ≠ HTTPStatusError status) →
  (∀ d, e ≠ RequestError d) →
  except_httpx wrap (Raise e) = Raise e.
Proof.
  intros H1 H2. destruct e; try reflexivity.
  - by destruct (H1 status).
  - by destruct (H2 description).
Qed.

(** The retryable signal that ends an exhausted call leaves every OpenAlex
    handler as it is. *)
Lemma retryable_status_leaves_handler (lib : Lib) (w : World) (mailto : string)
    (h : handler) (subject path : string) (params : option ParamType)
    (status : Z) (hint : option pyfloat) (t : Trace) :
  h ≠ fetch_fulltext →
  aget lib w (openalex mailto) path params None
    = Some (Raise (RetryableStatus status hint), t) →
  call_tool lib w mailto h subject path params
    = Some (Raise (RetryableStatus status hint), t).
Proof.
  intros Hh Hcall.
  assert (Htool : openalex_tool lib w mailto h subject path params
                  = Some (Raise (RetryableStatus status hint), t))
    by (unfold openalex_tool; by rewrite Hcall).
  destruct h; try exact Htool. congruence.
Qed.

(** C3, on the code. With 500 on every attempt the client of
    [papers_by_author] makes its 3 attempts and raises the internal retryable
    signal, whose message names status 500; the handler catches
    [HTTPStatusError] and [RequestError] only, so the signal leaves the
    handler as it is and no [ToolError] is made of it.  A network failure on
    every attempt, by contrast, is reported as a [ToolError]. *)
Theorem exhausted_status_leaves_handler :
  let w := scripted [] (Ret (response 500 None "")) 0 0 in
  let down := scripted [] (Raise (RequestError "timed out")) 0 0 in
  let params := Some (listing_params "authorships.author.id:A1" "cited_by_count" 1) in
  (∃ t, aget demo_lib w (openalex "me@example.org") "/works" params None
          = Some (Raise (RetryableStatus 500 None), t)
        ∧ attempts t = 3%nat
        ∧ papers_by_author_tool demo_lib w "me@example.org" "A1" "cited_by_count" 1
          = Some (Raise (RetryableStatus 500 None), t))
  ∧ exn_message (RetryableStatus 500 None) = "Retryable HTTP status: 500"
  ∧ (∀ m, RetryableStatus 500 None ≠ ToolError m)
  ∧ (∃ t, papers_by_author_tool demo_lib down "me@example.org" "A1" "cited_by_count" 1
          = Some (Raise (ToolError "Network error: timed out"), t)
        ∧ attempts t = 3%nat).
Proof.
  cbv zeta. split; [|split; [|split]].
  - eexists. split; [vm_compute; reflexivity|]. split; [reflexivity|].
    vm_compute. reflexivity.
  - vm_compute. reflexivity.
  - intros m. discriminate.
  - eexists. split; [vm_compute; reflexivity|]. reflexivity.
Qed.

(** C10. The client answers None, with one attempt and no sleep, when the
    first response is a 404 under the not-found policy, a 204, or a 2xx
    whose body decodes to JSON null: the three results are the same value.
    Every handler turns a None result into its "nothing found" ToolError. *)
Theorem none_is_ambiguous (lib : Lib) (w : World) (self : RequestAPI)
    (path : string) (params : option ParamType)
    (hs : option (gmap string string)) (resp : Response)
    (mailto : string) (h : handler) (subject : string) (t : Trace) :
  (send w (make_request self path params hs) 0 = Ret resp →
   (status_code resp = 404%Z ∧ return_none_on_404 self = true)
   ∨ status_code resp = 204%Z
   ∨ (is_success resp = true ∧ json_loads lib (content resp) = Ret PyNone) →
   get lib w self path params hs
     = Some (Ret PyNone, {| attempts := 1; sleeps := [] |})
   ∧ aget lib w self path params hs
     = Some (Ret PyNone, {| attempts := 1; sleeps := [] |}))
  ∧ (h ≠ fetch_fulltext →
     aget lib w (openalex mailto) path params None = Some (Ret PyNone, t) →
     call_tool lib w mailto h subject path params
       = Some (Raise (ToolError (empty_message h subject)), t))
  ∧ (∀ ok,
       validate_url_with_ssrf_guard lib (strip_prefix jina_prefix subject) = Ret ok →
       py_truthy ok = true →
       aget lib w jina ("/" ++ strip_prefix jina_prefix subject) None None
         = Some (Ret PyNone, t) →
       call_tool lib w mailto fetch_fulltext subject path params
         = Some (Raise (ToolError (empty_message fetch_fulltext subject)), t)).
Proof.
  split; [|split].
  - intros Hsend Hcase.
    assert (Honce : _get_once lib w self path params hs 0 = Ret PyNone).
    { destruct Hcase as [[H404 Hflag]|[H204|[Hok Hnull]]].
      - by apply (get_once_not_found lib w self path params hs 0 resp).
      - rewrite (get_once_success lib w self path params hs 0 resp Hsend).
        + unfold _parse. by rewrite H204.
        + unfold is_success. by rewrite H204.
      - rewrite (get_once_success lib w self path params hs 0 resp Hsend Hok).
        unfold _parse. rewrite Hnull. by destruct (status_code resp =? 204)%Z. }
    split.
    + rewrite get_first_final; rewrite Honce; reflexivity.
    + rewrite aget_first_final; rewrite Honce; reflexivity.
  - intros Hh Hcall.
    assert (Htool : openalex_tool lib w mailto h subject path params
                    = Some (Raise (ToolError (empty_message h subject)), t))
      by (unfold openalex_tool; by rewrite Hcall).
    destruct h; try exact Htool. congruence.
  - intros ok Hvalid Htruthy Hcall. cbn [call_tool].
    unfold fetch_fulltext_tool. rewrite Hvalid, Htruthy. cbn [negb].
    by rewrite Hcall.
Qed.

Lemma none_is_ambiguous_witness :
  get demo_lib (scripted [] (Ret (response 404 None "")) 0 0)
    (client true 3 (1 # 4)) "/works/W1" None None
    = Some (Ret PyNone, {| attempts := 1; sleeps := [] |})
  ∧ call_tool demo_lib (scripted [] (Ret (response 204 None "")) 0 0)
      "me@example.org" papers_by_author "A1" "/works" None
    = Some (Raise (ToolError "No works found for author_id=A1."),
            {| attempts := 1; sleeps := [] |}).
Proof.
  split.
  - destruct (none_is_ambiguous demo_lib
                (scripted [] (Ret (response 404 None "")) 0 0)
                (client true 3 (1 # 4)) "/works/W1" None None
                (response 404 None "") "" search_papers "" empty_trace)
      as (Hclient & _).
    apply Hclient; [reflexivity|]. left. split; reflexivity.
  - destruct (none_is_ambiguous demo_lib
                (scripted [] (Ret (response 204 None "")) 0 0)
                (client true 3 (1 # 4)) "/works" None None
                (response 204 None "") "me@example.org" papers_by_author "A1"
                {| attempts := 1; sleeps := [] |})
      as (_ & Htool & _).
    apply Htool; [discriminate|]. vm_compute. reflexivity.
Defined.

(** * Further properties of the code *)

(** ** The retry loop, for every world *)







Lemma sum_bounded (l : list Q) (bound : Q) :
  (∀ d, In d l → (d <= bound)%Q) →
  (fold_right Qplus 0%Q l <= inject_Z (Z.of_nat (length l)) * bound)%Q.
Proof.
  induction l as [|d l IH]; intros Hall; cbn [fold_right length].
  - change (inject_Z (Z.of_nat 0)) with 0%Q. lra.
  - rewrite Nat2Z.inj_succ, <- Z.add_1_r, inject_Z_plus.
    change (inject_Z 1) with 1%Q.
    assert (Hd : (d <= bound)%Q) by (apply Hall; by left).
    assert (IH' : (fold_right Qplus 0%Q l
                   <= inject_Z (Z.of_nat (length l)) * bound)%Q)
      by (apply IH; intros x Hx; apply Hall; by right).
    lra.
Qed.

(** X4. Whatever the responses and their Retry-After headers, each sleep of
    a call lasts between 0.5 and 8 + [jitter_max_seconds], so a call never
    sleeps longer in all than (attempts - 1) * (8 + [jitter_max_seconds]). *)
Theorem sleeps_are_bounded (lib : Lib) (w : World) (self : RequestAPI)
    (path : string) (params : option ParamType)
    (hs : option (gmap string string)) (res : result pyval) (t : Trace) :
  (0 <= jitter_max_seconds self)%Q →
  (∀ i, (0 <= random w i)%Q ∧ (random w i < 1)%Q) →
  get lib w self path params hs = Some (res, t) →
  Forall (λ d, (1 # 2 <= d)%Q ∧ (d <= 8 + jitter_max_seconds self)%Q) (sleeps t)
  ∧ (fold_right Qplus 0%Q (sleeps t)
     <= inject_Z (Z.of_nat (attempts t - 1)) * (8 + jitter_max_seconds self))%Q.
Proof.
  intros Hjmax Hrand Hget.
  destruct (get_characterised lib w self path params hs Hjmax
              (λ i, proj1 (Hrand i)))
    as (res' & t' & Hget' & _ & _ & _ & _ & Hsl).
  rewrite Hget in Hget'. injection Hget' as <- <-.
  assert (Hall : ∀ n s : nat, (1 ≤ s)%nat →
            Forall (λ d, (1 # 2 <= d)%Q ∧ (d <= 8 + jitter_max_seconds self)%Q)
                   (map (computed_wait w self) (seq s n))).
  { intros n. induction n as [|n IH]; intros s Hs; cbn [seq map].
    - constructor.
    - constructor; [|apply IH; lia].
      destruct s as [|i]; [lia|].
      rewrite computed_wait_is_backoff_plus_jitter.
      destruct (Hrand i) as [Hr0 Hr1].
      destruct (jitter_bounds w self i Hjmax Hr0 Hr1) as [Hj0 Hj1].
      destruct (backoff_spec_bounds i) as [_ Hb8].
      assert (Hb : (1 # 2 <= backoff_spec i)%Q).
      { clear. induction i as [|i IH]; [cbn; lra|].
        pose proof (backoff_spec_monotone i). lra. }
      split; lra. }
  split.
  - rewrite Hsl. apply Hall. lia.
  - assert (Hlen : length (sleeps t) = (attempts t - 1)%nat)
      by (by rewrite Hsl, length_map, length_seq).
    rewrite <- Hlen.
    apply sum_bounded. rewrite Hsl. intros d Hd.
    apply list_elem_of_In in Hd.
    apply (proj1 (Forall_forall _ _) (Hall (attempts t - 1)%nat 1%nat (le_n 1))) in Hd.
    tauto.
Qed.

Lemma sleeps_are_bounded_witness :
  ∃ res t,
    get demo_lib (scripted [] (Ret (response 429 (Some "120") "")) (1 # 2) 0)
      (client false 3 (1 # 4)) "/works" None None = Some (res, t)
    ∧ (fold_right Qplus 0%Q (sleeps t) <= 2 * (8 + (1 # 4)))%Q.
Proof.
  eexists _, _. split; [vm_compute; reflexivity|].
  edestruct (sleeps_are_bounded demo_lib
               (scripted [] (Ret (response 429 (Some "120") "")) (1 # 2) 0)
               (client false 3 (1 # 4)) "/works" None None)
    as (_ & Hsum).
  - cbn. lra.
  - intros i. cbn. lra.
  - vm_compute. reflexivity.
  - exact Hsum.
Defined.

(** ** The hook, parameters and headers *)

(** X5. Whatever float the Retry-After hint is, the value the hook writes
    into [next_action.sleep] is a number that is not negative: a positive
    hint is kept, a negative one, minus infinity and NaN become 0.  An
    outcome without hint leaves the retry state as it is. *)
Theorem hook_floors_every_hint (rs : RetryCallState) :
  (∀ status h,
     outcome rs = Some (Raise (RetryableStatus status (Some h))) →
     ∃ v, next_action_sleep (_maybe_sleep_until_retry_after rs) = Some v
          ∧ float_nonneg v
          ∧ (∀ q, h = Fin q → (0 < q)%Q → v = h)
          ∧ (h = NaN ∨ h = NegInf ∨ (∃ q, h = Fin q ∧ (q <= 0)%Q) → v = zero))
  ∧ ((∀ status h, outcome rs ≠ Some (Raise (RetryableStatus status (Some h)))) →
     _maybe_sleep_until_retry_after rs = rs).
Proof.
  split.
  - intros status h Hout. exists (py_max zero h).
    split; [by apply (hook_sets_next_action rs status h)|].
    unfold py_max, zero, float_gt.
    destruct h as [q| | |].
    + destruct (Qlt_le_dec 0 q) as [Hpos|Hneg]; cbn [float_nonneg].
      * split; [lra|]. split; [reflexivity|].
        intros [H|[H|(q' & [= <-] & H)]]; [discriminate|discriminate|lra].
      * split; [lra|]. split; [intros q' [= <-] H; lra|]. reflexivity.
    + cbn. split; [exact I|]. split; [intros q H; discriminate|].
      intros [H|[H|(q' & H & _)]]; discriminate.
    + cbn. split; [lra|]. split; [intros q H; discriminate|]. reflexivity.
    + cbn. split; [lra|]. split; [intros q H; discriminate|]. reflexivity.
  - intros Hno. unfold _maybe_sleep_until_retry_after.
    destruct (outcome rs) as [[v|e]|] eqn:Hout; try reflexivity.
    destruct e as [status [h|]| | | | | | | |]; try reflexivity.
    by destruct (Hno status h).
Qed.

Lemma hook_floors_every_hint_witness :
  next_action_sleep
    (_maybe_sleep_until_retry_after
       (set_outcome initial_state (Raise (RetryableStatus 503 (Some NaN)))))
  = Some zero.
Proof.
  destruct (hook_floors_every_hint
              (set_outcome initial_state (Raise (RetryableStatus 503 (Some NaN)))))
    as [Hhint _].
  destruct (Hhint 503%Z NaN) as (v & Hv & _ & _ & Hzero); [reflexivity|].
  rewrite Hv. f_equal. apply Hzero. by left.
Defined.

(** X6. A caller removes a default query parameter by passing None for its
    key, and no entry of the merged query is ever None. *)
Theorem caller_None_removes_default (self : RequestAPI)
    (p : gmap string pyval) :
  ∃ m, _merge_params self (Some (ParamMapping p)) = QDict m
       ∧ (∀ k, p !! k = Some PyNone → m !! k = None)
       ∧ (∀ k, m !! k ≠ Some PyNone)
       ∧ (∀ k, p !! k = None → default_params self !! k = Some PyNone →
               m !! k = None).
Proof.
  eexists. split; [reflexivity|].
  assert (Hno : ∀ k, drop_None (p ∪ default_params self) !! k ≠ Some PyNone).
  { intros k H. apply lookup_drop_None in H as [_ H]. by apply H. }
  split; [|split; [exact Hno|]].
  - intros k Hk.
    destruct (drop_None (p ∪ default_params self) !! k) as [v|] eqn:E;
      [|reflexivity].
    apply lookup_drop_None in E as [E Hv].
    apply lookup_union_Some_raw in E as [E|[E _]]; congruence.
  - intros k Hp Hd.
    destruct (drop_None (p ∪ default_params self) !! k) as [v|] eqn:E;
      [|reflexivity].
    apply lookup_drop_None in E as [E Hv].
    apply lookup_union_Some_raw in E as [E|[_ E]]; congruence.
Qed.

Lemma caller_None_removes_default_witness :
  ∃ m, _merge_params (client false 3 (1 # 4))
         (Some (ParamMapping {[ "mailto" := PyNone; "page" := PyInt 2 ]}))
       = QDict m
       ∧ m !! "mailto" = None.
Proof.
  destruct (caller_None_removes_default (client false 3 (1 # 4))
              {[ "mailto" := PyNone; "page" := PyInt 2 ]})
    as (m & Hm & Hgone & _).
  exists m. split; [exact Hm|]. apply Hgone. vm_compute. reflexivity.
Defined.

(** X7. The headers of the request are the configured headers overlaid by
    the caller's, the caller winning on a shared name; without caller
    headers they are the configured ones.  Path and timeout are the given
    path and the configured timeout. *)
Theorem request_headers_overlay (self : RequestAPI) (path : string)
    (params : option ParamType) :
  (∀ (c : gmap string string) k v,
     req_headers (make_request self path params (Some c)) !! k = Some v ↔
     c !! k = Some v ∨ (c !! k = None ∧ headers self !! k = Some v))
  ∧ req_headers (make_request self path params None) = headers self
  ∧ (∀ hs, req_path (make_request self path params hs) = path
           ∧ req_timeout (make_request self path params hs) = timeout self).
Proof.
  split; [|split].
  - intros c k v. cbn [req_headers make_request]. unfold merge_headers.
    cbn [default]. apply lookup_union_Some_raw.
  - cbn [req_headers make_request]. unfold merge_headers. cbn [default].
    apply (left_id_L ∅ (∪)).
  - intros hs. split; reflexivity.
Qed.

(** ** The OpenAlex handlers *)

Lemma openalex_first_final (lib : Lib) (w : World) (mailto : string)
    (path : string) (params : option ParamType) (o : result pyval) :
  _get_once lib w (openalex mailto) path params None 0 = o →
  retryable_outcome o = false →
  aget lib w (openalex mailto) path params None
    = Some (o, {| attempts := 1; sleeps := [] |}).
Proof.
  intros Ho Hfinal. subst o.
  exact (aget_first_final lib w (openalex mailto) path params None Hfinal).
Qed.

Lemma openalex_tool_is_call_tool (lib : Lib) (w : World) (mailto : string)
    (h : handler) (subject path : string) (params : option ParamType) :
  h ≠ fetch_fulltext →
  call_tool lib w mailto h subject path params
    = openalex_tool lib w mailto h subject path params.
Proof. intros Hh. destruct h; try reflexivity. congruence. Qed.

(** X8. The OpenAlex handlers build their client without the not-found
    policy, so a 404, like every other status outside 2xx that is not
    retried, ends the tool after one attempt with the ToolError "Request
    failed with status: <status>", not with the "nothing found" message. *)
Theorem handler_reports_fatal_status (lib : Lib) (w : World) (mailto : string)
    (h : handler) (subject path : string) (params : option ParamType)
    (resp : Response) :
  h ≠ fetch_fulltext →
  send w (make_request (openalex mailto) path params None) 0 = Ret resp →
  status_code resp ∉ RETRYABLE_STATUSES →
  is_success resp = false →
  call_tool lib w mailto h subject path params
    = Some (Raise (ToolError ("Request failed with status: "
                              ++ show_Z (status_code resp))),
            {| attempts := 1; sleeps := [] |}).
Proof.
  intros Hh Hsend Hnot Hfail.
  rewrite openalex_tool_is_call_tool by exact Hh. unfold openalex_tool.
  rewrite (openalex_first_final lib w mailto path params
             (Raise (HTTPStatusError (status_code resp)))).
  - reflexivity.
  - apply (get_once_fatal lib w (openalex mailto) path params None 0 resp);
      [exact Hsend | exact Hnot | | exact Hfail].
    cbn. intros [_ H]. discriminate H.
  - reflexivity.
Qed.

Lemma handler_reports_fatal_status_witness :
  call_tool demo_lib (scripted [] (Ret (response 404 None "")) 0 0)
    "me@example.org" referenced_works_in_paper "W1" "/works/W1" None
  = Some (Raise (ToolError "Request failed with status: 404"),
          {| attempts := 1; sleeps := [] |}).
Proof.
  apply (handler_reports_fatal_status demo_lib
           (scripted [] (Ret (response 404 None "")) 0 0)
           "me@example.org" referenced_works_in_paper "W1" "/works/W1" None
           (response 404 None "")).
  - discriminate.
  - reflexivity.
  - rewrite retryable_status_iff. cbn. lia.
  - reflexivity.
Defined.

(** X9. When the network fails on every attempt, an OpenAlex handler makes
    the three attempts of its client and raises the ToolError "Network
    error: " followed by the description of the last failure. *)
Theorem handler_reports_network_failure (lib : Lib) (w : World)
    (mailto : string) (h : handler) (subject path : string)
    (params : option ParamType) (description : nat → string) :
  h ≠ fetch_fulltext →
  (∀ n, send w (make_request (openalex mailto) path params None) n
        = Raise (RequestError (description n))) →
  ∃ t, call_tool lib w mailto h subject path params
         = Some (Raise (ToolError ("Network error: " ++ description 2%nat)), t)
       ∧ attempts t = 3%nat.
Proof.
  intros Hh Hdown.
  assert (Honce : ∀ n, _get_once lib w (openalex mailto) path params None n
                       = Raise (RequestError (description n)))
    by (intros n; unfold _get_once; by rewrite Hdown).
  destruct (aget_exhausted lib w (openalex mailto) path params None)
    as (e & t & Hget & Ha & Hlast & _).
  - cbn. lia.
  - intros i. by rewrite Honce.
  - cbn in Ha. assert (Ha' : attempts t = 3%nat) by lia.
    rewrite Ha', Honce in Hlast. injection Hlast as <-.
    exists t. split; [|exact Ha'].
    rewrite openalex_tool_is_call_tool by exact Hh. unfold openalex_tool.
    by rewrite Hget.
Qed.

Lemma handler_reports_network_failure_witness :
  ∃ t, call_tool demo_lib (scripted [] (Raise (RequestError "timed out")) 0 0)
         "me@example.org" works_citing_paper "W1" "/works" None
       = Some (Raise (ToolError "Network error: timed out"), t)
       ∧ attempts t = 3%nat.
Proof.
  apply (handler_reports_network_failure demo_lib
           (scripted [] (Raise (RequestError "timed out")) 0 0)
           "me@example.org" works_citing_paper "W1" "/works" None
           (λ _, "timed out")).
  - discriminate.
  - intros n. cbn. by destruct n.
Defined.

(** X10. An OpenAlex handler expects a JSON object: a 2xx response whose
    body is plain text, or JSON that is no object and not null, makes the
    handler fail with an AttributeError, which none of its [except] clauses
    catches. *)
Theorem handler_fails_on_non_object_body (lib : Lib) (w : World)
    (mailto : string) (h : handler) (subject path : string)
    (params : option ParamType) (resp : Response) (v : pyval) :
  h ≠ fetch_fulltext →
  send w (make_request (openalex mailto) path params None) 0 = Ret resp →
  is_success resp = true →
  _parse lib resp = Ret v →
  v ≠ PyNone →
  (∀ d, v ≠ PyDict d) →
  ∃ m, call_tool lib w mailto h subject path params
       = Some (Raise (AttributeError m), {| attempts := 1; sleeps := [] |}).
Proof.
  intros Hh Hsend Hok Hv Hnone Hdict.
  rewrite openalex_tool_is_call_tool by exact Hh. unfold openalex_tool.
  rewrite (openalex_first_final lib w mailto path params (Ret v));
    [|rewrite <- Hv; by apply get_once_success|reflexivity].
  cbn [bind]. unfold records_or_error.
  destruct v as [|b|z|f|s|l|d|]; cbn;
    try (eexists; reflexivity).
  - congruence.
  - by destruct (Hdict d).
Qed.

Lemma handler_fails_on_non_object_body_witness :
  ∃ m, call_tool demo_lib
         (scripted [] (Ret (response 200 None "Service is starting")) 0 0)
         "me@example.org" search_authors "" "/authors" None
       = Some (Raise (AttributeError m), {| attempts := 1; sleeps := [] |}).
Proof.
  apply (handler_fails_on_non_object_body demo_lib
           (scripted [] (Ret (response 200 None "Service is starting")) 0 0)
           "me@example.org" search_authors "" "/authors" None
           (response 200 None "Service is starting")
           (PyStr "Service is starting")).
  - discriminate.
  - reflexivity.
  - reflexivity.
  - reflexivity.
  - discriminate.
  - intros d. discriminate.
Defined.

(** X11. For a 2xx response that decodes to a JSON object, an OpenAlex
    handler raises its "nothing found" ToolError when the key it reads is
    missing or holds a falsy value: null, an empty list, an empty string, 0,
    false, an empty object. *)
Theorem handler_reports_missing_records (lib : Lib) (w : World)
    (mailto : string) (h : handler) (subject path : string)
    (params : option ParamType) (resp : Response) (d : list (string * pyval)) :
  h ≠ fetch_fulltext →
  send w (make_request (openalex mailto) path params None) 0 = Ret resp →
  is_success resp = true →
  _parse lib resp = Ret (PyDict d) →
  assoc (results_key h) d = None
  ∨ (∃ v, assoc (results_key h) d = Some v ∧ py_truthy v = false) →
  call_tool lib w mailto h subject path params
    = Some (Raise (ToolError (empty_message h subject)),
            {| attempts := 1; sleeps := [] |}).
Proof.
  intros Hh Hsend Hok Hd Hempty.
  rewrite openalex_tool_is_call_tool by exact Hh. unfold openalex_tool.
  rewrite (openalex_first_final lib w mailto path params (Ret (PyDict d)));
    [|rewrite <- Hd; by apply get_once_success|reflexivity].
  cbn [bind]. unfold records_or_error. cbn [is_None py_get bind].
  destruct Hempty as [Hmiss|(v & Hv & Hfalsy)].
  - rewrite Hmiss. reflexivity.
  - rewrite Hv. cbn [default]. unfold or_empty_list, id. rewrite Hfalsy.
    reflexivity.
Qed.

Lemma handler_reports_missing_records_witness :
  call_tool (lib_with_json (λ _, Ret (PyDict [("meta", PyDict [])])))
    (scripted [] (Ret (response 200 None "{}")) 0 0)
    "me@example.org" related_works_of_paper "W7" "/works/W7" None
  = Some (Raise (ToolError "No related_works works found for paper_id=W7."),
          {| attempts := 1; sleeps := [] |}).
Proof.
  apply (handler_reports_missing_records
           (lib_with_json (λ _, Ret (PyDict [("meta", PyDict [])])))
           (scripted [] (Ret (response 200 None "{}")) 0 0)
           "me@example.org" related_works_of_paper "W7" "/works/W7" None
           (response 200 None "{}") [("meta", PyDict [])]).
  - discriminate.
  - reflexivity.
  - reflexivity.
  - reflexivity.
  - by left.
Defined.

(** ** fetch_fulltext *)

Lemma prefix_app (p s : string) : String.prefix p (p ++ s) = true.
Proof.
  induction p as [|c p IH]; simpl.
  - by destruct s.
  - destruct (Ascii.ascii_dec c c); [exact IH|congruence].
Qed.

Lemma substring_all (s : string) : String.substring 0 (String.length s) s = s.
Proof. induction s as [|c s IH]; simpl; [reflexivity|by rewrite IH]. Qed.

Lemma substring_skip (p s : string) (n : nat) :
  String.substring (String.length p) n (p ++ s) = String.substring 0 n s.
Proof. induction p as [|c p IH]; simpl; [reflexivity|exact IH]. Qed.

Lemma length_append (p s : string) :
  String.length (p ++ s) = (String.length p + String.length s)%nat.
Proof. induction p as [|c p IH]; simpl; [reflexivity|by rewrite IH]. Qed.

Lemma strip_prefix_app (p s : string) : strip_prefix p (p ++ s) = s.
Proof.
  unfold strip_prefix. rewrite prefix_app, substring_skip, length_append.
  replace (String.length p + String.length s - String.length p)%nat
    with (String.length s) by lia.
  apply substring_all.
Qed.

(** X12. [fetch_fulltext] treats a URL and the same URL behind the proxy
    prefix alike: one leading "https://r.jina.ai/" is removed before the URL
    is checked and requested. *)
Theorem fetch_fulltext_strips_one_prefix (lib : Lib) (w : World) (url : string) :
  String.prefix jina_prefix url = false →
  fetch_fulltext_tool lib w (jina_prefix ++ url) = fetch_fulltext_tool lib w url.
Proof.
  intros Hno. unfold fetch_fulltext_tool.
  rewrite strip_prefix_app.
  unfold strip_prefix at 1 2 3. by rewrite Hno.
Qed.

Lemma fetch_fulltext_strips_one_prefix_witness :
  fetch_fulltext_tool demo_lib
    (scripted [] (Ret (response 200 None "text of the paper")) 0 0)
    "https://r.jina.ai/https://example.com/doc"
  = fetch_fulltext_tool demo_lib
      (scripted [] (Ret (response 200 None "text of the paper")) 0 0)
      "https://example.com/doc".
Proof.
  apply (fetch_fulltext_strips_one_prefix demo_lib _ "https://example.com/doc").
  reflexivity.
Defined.



(** X14. For an accepted URL, [fetch_fulltext] requests "/" followed by the
    URL from the proxy; a 2xx answer whose body the JSON decoder rejects
    with ValueError is returned as its text, and a status outside 2xx that
    is not retried is raised as the
    ResourceError "Request failed with status: <status>", each after one
    attempt. *)
Theorem fetch_fulltext_outcomes (lib : Lib) (w : World) (url : string)
    (ok : pyval) (resp : Response) :
  validate_url_with_ssrf_guard lib (strip_prefix jina_prefix url) = Ret ok →
  py_truthy ok = true →
  send w (make_request jina ("/" ++ strip_prefix jina_prefix url) None None) 0
    = Ret resp →
  (is_success resp = true → status_code resp ≠ 204%Z →
   (∃ m, json_loads lib (content resp) = Raise (ValueError m)) →
   fetch_fulltext_tool lib w url
     = Some (Ret (FullText (PyStr (content resp))),
             {| attempts := 1; sleeps := [] |}))
  ∧ (status_code resp ∉ RETRYABLE_STATUSES → is_success resp = false →
     fetch_fulltext_tool lib w url
       = Some (Raise (ResourceError ("Request failed with status: "
                                     ++ show_Z (status_code resp))),
               {| attempts := 1; sleeps := [] |})).
Proof.
  intros Hvalid Htruthy Hsend. unfold fetch_fulltext_tool.
  rewrite Hvalid, Htruthy. cbn [negb].
  split.
  - intros Hok H204 [m Hjson].
    assert (Honce : _get_once lib w jina ("/" ++ strip_prefix jina_prefix url)
                      None None 0 = Ret (PyStr (content resp))).
    { rewrite (get_once_success lib w jina _ None None 0 resp Hsend Hok).
      unfold _parse, text. apply Z.eqb_neq in H204. by rewrite H204, Hjson. }
    rewrite aget_first_final; rewrite Honce; reflexivity.
  - intros Hnot Hfail.
    assert (Honce : _get_once lib w jina ("/" ++ strip_prefix jina_prefix url)
                      None None 0 = Raise (HTTPStatusError (status_code resp))).
    { apply (get_once_fatal lib w jina _ None None 0 resp);
        [exact Hsend | exact Hnot | | exact Hfail].
      cbn. intros [_ H]. discriminate H. }
    rewrite aget_first_final; rewrite Honce; reflexivity.
Qed.

Lemma fetch_fulltext_outcomes_witness :
  fetch_fulltext_tool demo_lib
    (scripted [] (Ret (response 200 None "text of the paper")) 0 0)
    "https://example.com/doc"
  = Some (Ret (FullText (PyStr "text of the paper")),
          {| attempts := 1; sleeps := [] |}).
Proof.
  destruct (fetch_fulltext_outcomes demo_lib
              (scripted [] (Ret (response 200 None "text of the paper")) 0 0)
              "https://example.com/doc" (PyBool true)
              (response 200 None "text of the paper"))
    as [Htext _]; [reflexivity|reflexivity|reflexivity|].
  apply Htext; [reflexivity|discriminate|].
  exists "Expecting value". reflexivity.
Defined.

(** ** The connection handles *)

Lemma use_keeps_handles_ok (h : Handles) (u : client_use) :
  handles_ok h → handles_ok (use h u).
Proof.
  intros Hok. pose proof Hok as (Hnd & Hrel & Hc & Ha & Hne & Hcount).
  assert (Hens : handles_ok (_ensure_client h)).
  { unfold _ensure_client. destruct (_client h) as [c|] eqn:Ec; [exact Hok|].
    unfold handles_ok, live in *. rewrite Ec in Hcount. cbn.
    split; [exact Hnd|]. split; [intros c Hin; apply Hrel in Hin; lia|].
    split; [intros c [= <-]; split; [lia|]; intros Hin; apply Hrel in Hin; lia|].
    split; [intros c Hc'; destruct (Ha c Hc'); split; [lia|done]|].
    split; [intros c c' [= <-] Hc'; destruct (Ha c' Hc'); lia|].
    lia. }
  assert (Haens : handles_ok (_ensure_aclient h)).
  { unfold _ensure_aclient. destruct (_aclient h) as [c|] eqn:Ec; [exact Hok|].
    unfold handles_ok, live in *. rewrite Ec in Hcount. cbn.
    split; [exact Hnd|]. split; [intros c Hin; apply Hrel in Hin; lia|].
    split; [intros c Hc'; destruct (Hc c Hc'); split; [lia|done]|].
    split; [intros c [= <-]; split; [lia|]; intros Hin; apply Hrel in Hin; lia|].
    split; [intros c c' Hc' [= <-]; destruct (Hc c Hc'); lia|].
    destruct (_client h); lia. }
  assert (Hclose : handles_ok (close h)).
  { unfold close. destruct (_client h) as [c|] eqn:Ec; [|exact Hok].
    destruct (Hc c eq_refl) as [Hlt Hnot].
    unfold handles_ok, live in *. rewrite Ec in Hcount. cbn.
    split.
    { apply NoDup_app. split; [exact Hnd|]. split; [|apply NoDup_singleton].
      intros x Hx Hx'. apply list_elem_of_singleton in Hx'. by subst. }
    split.
    { intros x Hx. apply elem_of_app in Hx as [Hx|Hx]; [by apply Hrel|].
      apply list_elem_of_singleton in Hx. by subst. }
    split; [intros x Hx; discriminate|].
    split.
    { intros x Hx. destruct (Ha x Hx) as [Hlt' Hnot']. split; [exact Hlt'|].
      intros Hin. apply elem_of_app in Hin as [Hin|Hin]; [done|].
      apply list_elem_of_singleton in Hin. subst. by apply (Hne c c). }
    split; [intros x x' Hx; discriminate|].
    rewrite length_app. cbn. lia. }
  assert (Haclose : handles_ok (aclose h)).
  { unfold aclose. destruct (_aclient h) as [c|] eqn:Ec; [|exact Hok].
    destruct (Ha c eq_refl) as [Hlt Hnot].
    unfold handles_ok, live in *. rewrite Ec in Hcount. cbn.
    split.
    { apply NoDup_app. split; [exact Hnd|]. split; [|apply NoDup_singleton].
      intros x Hx Hx'. apply list_elem_of_singleton in Hx'. by subst. }
    split.
    { intros x Hx. apply elem_of_app in Hx as [Hx|Hx]; [by apply Hrel|].
      apply list_elem_of_singleton in Hx. by subst. }
    split.
    { intros x Hx. destruct (Hc x Hx) as [Hlt' Hnot']. split; [exact Hlt'|].
      intros Hin. apply elem_of_app in Hin as [Hin|Hin]; [done|].
      apply list_elem_of_singleton in Hin. subst. by apply (Hne c c). }
    split; [intros x Hx; discriminate|].
    split; [intros x x' _ Hx; discriminate|].
    rewrite length_app. cbn. destruct (_client h); lia. }
  destruct u; assumption.
Qed.

Lemma no_handles_ok : handles_ok no_handles.
Proof.
  unfold handles_ok, no_handles, live. cbn.
  split; [constructor|]. split; [intros c H; by apply not_elem_of_nil in H|].
  repeat split; intros; discriminate.
Qed.

Lemma use_all_keeps_handles_ok (us : list client_use) :
  ∀ h, handles_ok h → handles_ok (use_all us h).
Proof.
  induction us as [|u us IH]; intros h Hok; [exact Hok|].
  cbn. apply IH. by apply use_keeps_handles_ok.
Qed.

Lemma close_fields (x : Handles) :
  _client (close x) = None ∧ _aclient (close x) = _aclient x
  ∧ created (close x) = created x.
Proof. unfold close. destruct (_client x) eqn:E; cbn; by rewrite ?E. Qed.

Lemma aclose_fields (x : Handles) :
  _aclient (aclose x) = None ∧ _client (aclose x) = _client x
  ∧ created (aclose x) = created x.
Proof. unfold aclose. destruct (_aclient x) eqn:E; cbn; by rewrite ?E. Qed.

(** X15. Whatever a caller does with a client, in any order ([get], [aget],
    [close], [aclose], entering and leaving either context manager), no
    handle is released twice, a handle the client still holds has not been
    released, and every handle ever made is either held or released. *)
Theorem handles_are_accounted_for (us : list client_use) :
  handles_ok (use_all us no_handles).
Proof. apply use_all_keeps_handles_ok, no_handles_ok. Qed.

(** X16. After [close] and [aclose] the client holds no handle and every
    handle it ever made has been released, whatever was done before;
    closing again changes nothing. *)
Theorem closing_releases_every_handle (us : list client_use) :
  let h := aclose (close (use_all us no_handles)) in
  _client h = None ∧ _aclient h = None
  ∧ length (released h) = created h
  ∧ close h = h ∧ aclose h = h.
Proof.
  cbv zeta.
  pose proof (use_all_keeps_handles_ok us no_handles no_handles_ok) as Hok.
  apply (use_keeps_handles_ok _ use_close) in Hok.
  apply (use_keeps_handles_ok _ use_aclose) in Hok. cbn [use] in Hok.
  set (h := aclose (close (use_all us no_handles))) in *.
  assert (Hc : _client h = None).
  { unfold h. rewrite (proj1 (proj2 (aclose_fields _))). apply close_fields. }
  assert (Ha : _aclient h = None) by apply aclose_fields.
  split; [exact Hc|]. split; [exact Ha|].
  destruct Hok as (_ & _ & _ & _ & _ & Hcount).
  unfold live in Hcount. rewrite Hc, Ha in Hcount.
  split; [lia|]. unfold close, aclose. by rewrite Hc, Ha.
Qed.

(** X17. Acquiring is idempotent and reacquiring is fresh: a second
    [_ensure_client] changes nothing, while after [close] the next
    [_ensure_client] makes a handle that was never used before. *)
Theorem ensure_client_is_idempotent_and_fresh (us : list client_use) :
  let h := use_all us no_handles in
  _ensure_client (_ensure_client h) = _ensure_client h
  ∧ _ensure_aclient (_ensure_aclient h) = _ensure_aclient h
  ∧ ∃ c, _client (_ensure_client (close h)) = Some c
         ∧ (c ∉ released (close h))
         ∧ _client h ≠ Some c
         ∧ _aclient h ≠ Some c.
Proof.
  cbv zeta.
  pose proof (use_all_keeps_handles_ok us no_handles no_handles_ok) as Hok.
  set (h := use_all us no_handles) in *.
  split; [|split].
  - unfold _ensure_client. destruct (_client h) eqn:E; [by rewrite E|reflexivity].
  - unfold _ensure_aclient. destruct (_aclient h) eqn:E; [by rewrite E|reflexivity].
  - pose proof (use_keeps_handles_ok h use_close Hok) as Hok'. cbn [use] in Hok'.
    assert (Hnone : _client (close h) = None) by apply close_fields.
    assert (Hcr : created (close h) = created h) by apply close_fields.
    exists (created h). unfold _ensure_client at 1. rewrite Hnone. cbn.
    rewrite Hcr. split; [reflexivity|].
    destruct Hok as (_ & _ & Hc & Ha & _).
    destruct Hok' as (_ & Hrel' & _).
    split; [intros Hin; apply Hrel' in Hin; lia|].
    split; intros E; [apply Hc in E|apply Ha in E]; lia.
Qed.

(** X18. The context managers release the handle of their own kind only:
    after [__exit__] the blocking handle is gone whatever the body did, and
    a non-blocking handle the body acquired with [aget] is still held; each
    [close] leaves the handle of the other kind as it was. *)
Theorem exit_releases_its_own_handle (body : list client_use) (h : Handles) :
  _client (__exit__ (use_all body (__enter__ h))) = None
  ∧ _aclient (__aexit__ (use_all body (__aenter__ h))) = None
  ∧ _aclient (__exit__ (use_all body (__enter__ h)))
    = _aclient (use_all body (__enter__ h))
  ∧ _client (__aexit__ (use_all body (__aenter__ h)))
    = _client (use_all body (__aenter__ h))
  ∧ _aclient (__exit__ (use_all (body ++ [use_aget]) (__enter__ h))) ≠ None.
Proof.
  unfold __exit__, __aexit__.
  split; [apply close_fields|]. split; [apply aclose_fields|].
  split; [apply close_fields|]. split; [apply aclose_fields|].
  rewrite (proj1 (proj2 (close_fields _))). unfold use_all.
  rewrite fold_left_app. cbn [fold_left use].
  set (x := fold_left use body (__enter__ h)).
  unfold _ensure_aclient. destruct (_aclient x) eqn:E.
  - rewrite E. discriminate.
  - cbn. discriminate.
Qed.

(** X19. A handler's use of its client, [async with RequestAPI(...) as api]
    around any number of [api.aget] calls, makes exactly one handle and
    releases it: nothing is left open and no blocking handle is made. *)
Theorem handler_releases_its_handle (n : nat) :
  use_all (use_aenter :: repeat use_aget n ++ [use_aexit]) no_handles
  = {| _client := None; _aclient := None; created := 1; released := [0%nat] |}.
Proof.
  unfold use_all. cbn [fold_left use __aenter__ _ensure_aclient no_handles
                       _aclient _client created released].
  rewrite fold_left_app.
  assert (Hrep : fold_left use (repeat use_aget n)
                   {| _client := None; _aclient := Some 0%nat;
                      created := 1; released := [] |}
                 = {| _client := None; _aclient := Some 0%nat;
                      created := 1; released := [] |}).
  { induction n as [|n IH]; [reflexivity|]. cbn. exact IH. }
  rewrite Hrep. reflexivity.
Qed.

(** ** sanitize_search_text *)

Lemma rstrip_cons_nonspace (c : N) (s : list N) :
  isspace c = false → rstrip (c :: s) = c :: rstrip s.
Proof. intros H. cbn [rstrip]. rewrite H. by destruct (rstrip s). Qed.

Lemma lstrip_sub_whitespace_runs (s : list N) :
  lstrip (sub_whitespace_runs false s) = sub_whitespace_runs true s.
Proof.
  assert (Hfix : ∀ t, lstrip (sub_whitespace_runs true t)
                      = sub_whitespace_runs true t).
  { induction t as [|c t IH]; [reflexivity|]. cbn [sub_whitespace_runs].
    destruct (isspace c) eqn:E; [exact IH|]. cbn [lstrip]. by rewrite E. }
  destruct s as [|c s]; [reflexivity|]. cbn [sub_whitespace_runs].
  destruct (isspace c) eqn:E.
  - cbn [lstrip]. change (isspace space) with true. cbv iota. apply Hfix.
  - cbn [lstrip]. by rewrite E.
Qed.

Lemma pieces_not_nil (sep : N → bool) (s : list N) : pieces sep s ≠ [].
Proof.
  destruct s as [|c s]; cbn; [discriminate|].
  destruct (sep c); [discriminate|]. destruct (pieces sep s); discriminate.
Qed.

Lemma pieces_replace_comma (s : list N) :
  pieces isspace (replace_comma s) = pieces is_separator s.
Proof.
  induction s as [|c s IH]; [reflexivity|].
  cbn [replace_comma map pieces]. fold (replace_comma s). rewrite IH.
  unfold is_separator. destruct (N.eqb c comma) eqn:E.
  - change (isspace space) with true. by rewrite orb_true_r.
  - by rewrite orb_false_r.
Qed.

Lemma pieces_free_of_separators (sep : N → bool) (s : list N) :
  Forall (Forall (λ c, sep c = false)) (pieces sep s).
Proof.
  induction s as [|c s IH]; cbn [pieces].
  - by repeat constructor.
  - destruct (sep c) eqn:E; [by constructor|].
    destruct (pieces sep s) as [|w ws]; [by repeat constructor|].
    inversion IH; subst. constructor; [by constructor|done].
Qed.

Lemma words_ok (s : list N) : Forall word_ok (words s).
Proof.
  unfold words. pose proof (pieces_free_of_separators is_separator s) as H.
  induction H as [|w ws Hw _ IH]; cbn [List.filter]; [constructor|].
  destruct w as [|c w]; cbn [nonempty]; [exact IH|].
  constructor; [|exact IH]. split; [discriminate|exact Hw].
Qed.

Lemma filter_nonempty_all (ws : list (list N)) :
  Forall (λ w, w ≠ []) (List.filter nonempty ws).
Proof.
  induction ws as [|w ws IH]; cbn [List.filter]; [constructor|].
  destruct w; cbn [nonempty]; [exact IH|]. by constructor.
Qed.

Lemma join_spaces_nil (ws : list (list N)) :
  Forall (λ w, w ≠ []) ws → join_spaces ws = [] → ws = [].
Proof.
  intros Hok. destruct Hok as [|w ws Hw _]; [reflexivity|].
  cbn [join_spaces]. destruct ws; [congruence|]. by destruct w.
Qed.

(** What is left of the text after the runs are replaced and the ends are
    stripped, read off the pieces of the text. *)
Lemma rstrip_sub_whitespace_runs (s : list N) :
  ∀ w ws, pieces isspace s = w :: ws →
    rstrip (sub_whitespace_runs false s)
      = join_spaces (w :: List.filter nonempty ws)
    ∧ rstrip (sub_whitespace_runs true s)
      = join_spaces (List.filter nonempty (w :: ws)).
Proof.
  induction s as [|c s IH]; intros w ws Hp.
  - injection Hp as <- <-. split; reflexivity.
  - cbn [pieces] in Hp. cbn [sub_whitespace_runs].
    destruct (pieces isspace s) as [|w' ws'] eqn:Hs;
      [by destruct (pieces_not_nil isspace s)|].
    destruct (IH w' ws' eq_refl) as [IHa IHb].
    pose proof (filter_nonempty_all (w' :: ws')) as Hok.
    destruct (isspace c) eqn:E.
    + injection Hp as <- <-. split.
      * cbn [rstrip]. change (isspace space) with true. rewrite IHb.
        cbn [join_spaces].
        destruct (List.filter nonempty (w' :: ws')) as [|x xs] eqn:Hf;
          [reflexivity|].
        destruct (join_spaces (x :: xs)) eqn:Hj; [|reflexivity].
        apply join_spaces_nil in Hj; [discriminate|exact Hok].
      * exact IHb.
    + injection Hp as <- <-.
      rewrite (rstrip_cons_nonspace c _ E), IHa.
      split.
      * cbn [join_spaces]. by destruct (List.filter nonempty ws').
      * cbn [List.filter nonempty join_spaces].
        by destruct (List.filter nonempty ws').
Qed.

Lemma sanitize_search_text_words (s : list N) :
  sanitize_search_text (Some s) = Some (join_spaces (words s)).
Proof.
  destruct s as [|c s]; [reflexivity|].
  cbn [sanitize_search_text]. f_equal. unfold strip.
  rewrite lstrip_sub_whitespace_runs.
  destruct (pieces isspace (replace_comma (c :: s))) as [|w ws] eqn:Hp;
    [by destruct (pieces_not_nil isspace (replace_comma (c :: s)))|].
  rewrite (proj2 (rstrip_sub_whitespace_runs _ w ws Hp)).
  unfold words. by rewrite <- pieces_replace_comma, Hp.
Qed.

(** X20. The sanitiser returns the words of the text, the runs of code
    points between commas and whitespace, joined by single spaces; None and
    the empty text are returned as they are. *)
Theorem sanitize_joins_the_words (s : list N) :
  sanitize_search_text (Some s) = Some (join_spaces (words s))
  ∧ sanitize_search_text None = None
  ∧ sanitize_search_text (Some []) = Some [].
Proof.
  split; [apply sanitize_search_text_words|]. split; reflexivity.
Qed.

Lemma separator_cases (c : N) :
  is_separator c = false → isspace c = false ∧ c ≠ comma ∧ c ≠ space.
Proof.
  unfold is_separator. intros H. apply orb_false_iff in H as [Hs Hc].
  split; [exact Hs|]. split.
  - intros ->. discriminate Hc.
  - intros ->. discriminate Hs.
Qed.

Lemma join_spaces_cons (w : list N) (ws : list (list N)) :
  join_spaces (w :: ws)
  = match ws with [] => w | _ => (w ++ space :: join_spaces ws)%list end.
Proof. reflexivity. Qed.

Lemma join_spaces_members (ws : list (list N)) :
  Forall word_ok ws →
  ∀ c, In c (join_spaces ws) → c = space ∨ is_separator c = false.
Proof.
  induction 1 as [|w ws [_ Hw] Hws IH]; intros c Hc; [destruct Hc|].
  rewrite join_spaces_cons in Hc.
  assert (Hin : ∀ x, In x w → is_separator x = false)
    by (intros x Hx; apply list_elem_of_In in Hx;
        exact (proj1 (Forall_forall _ _) Hw x Hx)).
  destruct ws as [|w' ws'].
  - right. by apply Hin.
  - apply in_app_or in Hc as [Hc|[Hc|Hc]].
    + right. by apply Hin.
    + by left.
    + by apply IH.
Qed.

Lemma single_spaced_word (w rest : list N) (b : bool) :
  Forall (λ c, is_separator c = false) w → w ≠ [] →
  single_spaced b (w ++ rest)%list = single_spaced false rest.
Proof.
  intros Hw. revert b. induction Hw as [|c w Hc Hw IH]; intros b Hne; [done|].
  cbn [app single_spaced].
  destruct (separator_cases c Hc) as (_ & _ & Hsp).
  apply N.eqb_neq in Hsp. rewrite Hsp.
  destruct w as [|c' w']; [reflexivity|]. by apply IH.
Qed.

Lemma join_spaces_single_spaced (ws : list (list N)) :
  Forall word_ok ws → ∀ b, single_spaced b (join_spaces ws) = true.
Proof.
  induction 1 as [|w ws [Hne Hw] Hws IH]; intros b; [reflexivity|].
  rewrite join_spaces_cons. destruct ws as [|w' ws'].
  - rewrite <- (app_nil_r w). by rewrite single_spaced_word.
  - rewrite single_spaced_word by done.
    cbn [single_spaced]. rewrite N.eqb_refl. cbn [negb andb]. apply IH.
Qed.

Lemma join_spaces_head (ws : list (list N)) :
  Forall word_ok ws → ∀ c r, join_spaces ws = c :: r → is_separator c = false.
Proof.
  intros Hok c r Hj. destruct Hok as [|w ws [Hne Hw] _]; [discriminate|].
  rewrite join_spaces_cons in Hj.
  destruct w as [|c' w]; [done|].
  inversion Hw; subst.
  destruct ws; cbn in Hj; injection Hj as <- _; assumption.
Qed.

Lemma join_spaces_last (ws : list (list N)) :
  Forall word_ok ws → ∀ r c, join_spaces ws = (r ++ [c])%list → is_separator c = false.
Proof.
  induction 1 as [|w ws [Hne Hw] Hws IH]; intros r c Hj.
  - by destruct r.
  - rewrite join_spaces_cons in Hj. destruct ws as [|w' ws'].
    + subst w. apply Forall_app in Hw as [_ Hw]. by inversion Hw.
    + destruct (join_spaces (w' :: ws')) as [|x xs] eqn:Hj'.
      { apply join_spaces_nil in Hj'; [discriminate|].
        eapply Forall_impl; [exact Hws|]. by intros ? [? _]. }
      destruct (exists_last (l := x :: xs)) as (r' & c' & Hlast); [discriminate|].
      rewrite Hlast in Hj.
      replace (w ++ space :: r' ++ [c'])%list
        with ((w ++ space :: r') ++ [c'])%list in Hj
        by (by rewrite <- app_assoc).
      apply app_inj_tail in Hj as [_ <-]. by apply (IH r').
Qed.

(** X21. A sanitised text holds no comma, no whitespace but the space, no
    two spaces in a row, and neither starts nor ends with whitespace. *)
Theorem sanitized_text_is_normal (s out : list N) :
  sanitize_search_text (Some s) = Some out →
  ¬ In comma out
  ∧ (∀ c, In c out → isspace c = true → c = space)
  ∧ single_spaced false out = true
  ∧ (∀ c r, out = c :: r → isspace c = false)
  ∧ (∀ r c, out = (r ++ [c])%list → isspace c = false).
Proof.
  rewrite sanitize_search_text_words. intros [= <-].
  pose proof (words_ok s) as Hok.
  split; [|split; [|split; [|split]]].
  - intros Hin. destruct (join_spaces_members _ Hok _ Hin) as [H|H];
      discriminate H.
  - intros c Hin Hsp. destruct (join_spaces_members _ Hok _ Hin) as [H|H];
      [exact H|]. apply separator_cases in H as [H _]. congruence.
  - by apply join_spaces_single_spaced.
  - intros c r Hj. apply (join_spaces_head _ Hok) in Hj.
    by apply separator_cases in Hj as [Hj _].
  - intros r c Hj. apply (join_spaces_last _ Hok) in Hj.
    by apply separator_cases in Hj as [Hj _].
Qed.

Lemma sanitized_text_is_normal_witness :
  sanitize_search_text (Some [97; 44; 32; 9; 98; 32]%N) = Some [97; 32; 98]%N
  ∧ ¬ In comma [97; 32; 98]%N.
Proof.
  split; [reflexivity|].
  apply (sanitized_text_is_normal [97; 44; 32; 9; 98; 32]%N [97; 32; 98]%N).
  reflexivity.
Defined.

Lemma pieces_word (w : list N) :
  Forall (λ c, is_separator c = false) w → pieces is_separator w = [w].
Proof.
  induction 1 as [|c w Hc Hw IH]; [reflexivity|].
  cbn [pieces]. by rewrite Hc, IH.
Qed.

Lemma pieces_word_then_space (w rest : list N) :
  Forall (λ c, is_separator c = false) w →
  pieces is_separator (w ++ space :: rest)%list = w :: pieces is_separator rest.
Proof.
  induction 1 as [|c w Hc Hw IH]; [reflexivity|].
  cbn [app pieces]. by rewrite Hc, IH.
Qed.

Lemma words_of_joined (ws : list (list N)) :
  Forall word_ok ws → words (join_spaces ws) = ws.
Proof.
  unfold words. induction 1 as [|w ws [Hne Hw] Hws IH]; [reflexivity|].
  rewrite join_spaces_cons. destruct ws as [|w' ws'].
  - rewrite pieces_word by done. cbn [List.filter].
    by destruct w.
  - rewrite pieces_word_then_space by done. cbn [List.filter].
    rewrite IH. by destruct w.
Qed.

(** X22. Sanitising is idempotent, and a text that holds neither comma nor
    whitespace is returned unchanged. *)
Theorem sanitize_is_idempotent (s : option (list N)) :
  sanitize_search_text (sanitize_search_text s) = sanitize_search_text s
  ∧ (∀ t, s = Some t → Forall (λ c, is_separator c = false) t →
          sanitize_search_text s = s).
Proof.
  split.
  - destruct s as [s|]; [|reflexivity].
    rewrite !sanitize_search_text_words.
    by rewrite words_of_joined by apply words_ok.
  - intros t -> Hfree. rewrite sanitize_search_text_words.
    f_equal. unfold words. rewrite pieces_word by done.
    cbn [List.filter]. by destruct t.
Qed.

Lemma sanitize_is_idempotent_witness :
  sanitize_search_text (Some [109; 105; 116]%N) = Some [109; 105; 116]%N.
Proof.
  destruct (sanitize_is_idempotent (Some [109; 105; 116]%N)) as [_ Hsame].
  apply (Hsame [109; 105; 116]%N); [reflexivity|].
  repeat constructor.
Defined.

(** ** Paging *)

(** X23. [has_next] is True or None, never False.  For an integer count and
    a product [per_page * page] that is not negative it is True exactly when
    the count exceeds [per_page * page]; a count of 0 or None gives None, as
    does a result without "meta" or without "count". *)
Theorem has_next_means_more_records (per_page page : Z) :
  (∀ count r, has_next count per_page page = Ret r → r ≠ Some false)
  ∧ (∀ c, (0 <= per_page * page)%Z →
          (has_next (PyInt c) per_page page = Ret (Some true)
           ↔ (per_page * page < c)%Z)
          ∧ (has_next (PyInt c) per_page page = Ret None
             ↔ (c <= per_page * page)%Z))
  ∧ has_next (PyInt 0) per_page page = Ret None
  ∧ has_next PyNone per_page page = Ret None
  ∧ (∀ d, assoc "meta" d = None ∨ assoc "meta" d = Some PyNone →
          total_count (PyDict d) = Ret PyNone)
  ∧ (∀ d m, assoc "meta" d = Some (PyDict m) → assoc "count" m = None →
            total_count (PyDict d) = Ret PyNone).
Proof.
  split; [|split; [|split; [|split; [|split]]]].
  - intros count r. unfold has_next.
    destruct (py_truthy count); [|by intros [= <-]].
    destruct (py_gt_int count (per_page * page)) as [more|e]; cbn [bind];
      [|discriminate].
    destruct more; by intros [= <-].
  - intros c Hpos. unfold has_next. cbn [py_truthy py_gt_int bind].
    destruct (Z.eqb_spec c 0) as [->|Hc]; cbn [negb].
    + split; split; intros H; try discriminate; try reflexivity; lia.
    + destruct (Z.ltb_spec (per_page * page) c) as [Hlt|Hge].
      * split; split; intros H; try discriminate; try reflexivity; lia.
      * split; split; intros H; try discriminate; try reflexivity; lia.
  - reflexivity.
  - reflexivity.
  - intros d [H|H]; unfold total_count; cbn [py_get_default bind];
      rewrite H; reflexivity.
  - intros d m Hm Hc. unfold total_count. cbn [py_get_default bind].
    rewrite Hm. cbn [default]. unfold or_empty_dict, id.
    destruct m as [|p m]; [reflexivity|]. cbn [py_truthy].
    unfold py_get_default. by rewrite Hc.
Qed.

Lemma has_next_means_more_records_witness :
  has_next (PyInt 37) 10 1 = Ret (Some true)
  ∧ has_next (PyInt 37) 10 4 = Ret None.
Proof.
  destruct (has_next_means_more_records 10 1) as (_ & H1 & _).
  destruct (has_next_means_more_records 10 4) as (_ & H4 & _).
  split.
  - apply (H1 37%Z); lia.
  - apply (H4 37%Z); lia.
Defined.
